(** * gpu_watch: a shallow embedding of [gpu_watch.py] and its properties

    The program polls [nvidia-smi], parses one reading per device, classifies
    each device against two thresholds, reports, alerts, optionally mails, and
    sleeps.  The embedding follows the source function by function.  Python
    [str] values are modelled as [string]; a character is a code point below
    256 (the Latin-1 range), which covers everything [nvidia-smi] prints.
    Python [int] values are modelled as [Z]. *)

From Stdlib Require Import ZArith QArith List Bool Ascii String Lia.
From Stdlib Require Import DecimalString DecimalZ.
Import ListNotations.

#[local] Open Scope string_scope.
#[local] Open Scope Z_scope.

(** ** Python string primitives *)

Module PyStr.

(** Code point of a character. *)
Definition ord (c : ascii) : nat := nat_of_ascii c.

Definition code_in (c : ascii) (codes : list nat) : bool :=
  existsb (Nat.eqb (ord c)) codes.

(** [str.isspace] on a single character: below 256 these are the code points
    9-13, 28-31, 32, 133 and 160. *)
Definition isspace (c : ascii) : bool :=
  code_in c [9; 10; 11; 12; 13; 28; 29; 30; 31; 32; 133; 160]%nat.

(** Line boundaries of [str.splitlines]: below 256 these are the code points
    10-13, 28-30 and 133. *)
Definition islinebreak (c : ascii) : bool :=
  code_in c [10; 11; 12; 13; 28; 29; 30; 133]%nat.

(** White space skipped by [int(str)]: the C white space 9-13 and 32, and the
    non-ASCII Unicode spaces (133 and 160 below 256).  The separators 28-31
    are white space for [str.strip] but not for [int]. *)
Definition int_isspace (c : ascii) : bool :=
  code_in c [9; 10; 11; 12; 13; 32; 133; 160]%nat.

(** [str.isdecimal] on a single character: below 256 these are the ten ASCII
    digits. *)
Definition isdecimal (c : ascii) : bool :=
  code_in c [48; 49; 50; 51; 52; 53; 54; 55; 56; 57]%nat.

Definition is_empty (s : string) : bool :=
  match s with EmptyString => true | String _ _ => false end.

Section Strip.
Variable sp : ascii -> bool.

Fixpoint lstrip_with (s : string) : string :=
  match s with
  | EmptyString => EmptyString
  | String c r => if sp c then lstrip_with r else s
  end.

Fixpoint rstrip_with (s : string) : string :=
  match s with
  | EmptyString => EmptyString
  | String c r =>
      let r' := rstrip_with r in
      if is_empty r' && sp c then EmptyString else String c r'
  end.

Definition strip_with (s : string) : string := rstrip_with (lstrip_with s).
End Strip.

(** [s.strip()] *)
Definition strip : string -> string := strip_with isspace.

(** [s.splitlines()]: the lines of [s] without their line boundaries; a
    carriage return followed by a line feed is one boundary, and no empty line
    is produced after a final boundary. *)
Fixpoint splitlines (s : string) : list string :=
  match s with
  | EmptyString => []
  | String c r =>
      if islinebreak c then
        match r with
        | String c' r' =>
            if (ord c =? 13)%nat && (ord c' =? 10)%nat
            then EmptyString :: splitlines r'
            else EmptyString :: splitlines r
        | EmptyString => [EmptyString]
        end
      else
        match splitlines r with
        | [] => [String c EmptyString]
        | l :: ls => String c l :: ls
        end
  end.

(** [s.split(sep)] for a one-character separator: never the empty list. *)
Fixpoint split (sep : ascii) (s : string) : list string :=
  match s with
  | EmptyString => [EmptyString]
  | String c r =>
      if Ascii.eqb c sep then EmptyString :: split sep r
      else
        match split sep r with
        | [] => [String c EmptyString]
        | f :: fs => String c f :: fs
        end
  end.

(** [sep.join(parts)] *)
Fixpoint join (sep : string) (parts : list string) : string :=
  match parts with
  | [] => EmptyString
  | [p] => p
  | p :: ps => p ++ sep ++ join sep ps
  end.

(** [str(n)] for an [int] *)
Definition str (n : Z) : string := NilZero.string_of_int (Z.to_int n).

(** The digits of an [int] literal: a digit first, then digits with single
    underscores between them; the underscores are dropped.  [us] tells that
    the previous character was not a digit. *)
Fixpoint literal_digits (us : bool) (s : string) : option string :=
  match s with
  | EmptyString => if us then None else Some EmptyString
  | String c r =>
      if Ascii.eqb c "_" then
        if us then None else literal_digits true r
      else if isdecimal c then option_map (String c) (literal_digits false r)
      else None
  end.

Definition unsigned_literal (s : string) : option Z :=
  match literal_digits true s with
  | Some ds => option_map Z.of_uint (NilEmpty.uint_of_string ds)
  | None => None
  end.

(** [int(s)]: [None] stands for the [ValueError] that [int] raises on a
    string that is not a decimal literal.  The interpreter's limit on the
    number of digits is a run-time setting and is not modelled: integers are
    unbounded. *)
Definition int (s : string) : option Z :=
  match strip_with int_isspace s with
  | EmptyString => None
  | String c r =>
      if Ascii.eqb c "-" then option_map Z.opp (unsigned_literal r)
      else if Ascii.eqb c "+" then unsigned_literal r
      else unsigned_literal (String c r)
  end.

(** Whether every character of [s] satisfies [p]. *)
Fixpoint all_chars (p : ascii -> bool) (s : string) : bool :=
  match s with
  | EmptyString => true
  | String c r => p c && all_chars p r
  end.

End PyStr.

Definition nl : string := String (ascii_of_nat 10) EmptyString.
Definition cr : string := String (ascii_of_nat 13) EmptyString.
Definition chr (n : nat) : string := String (ascii_of_nat n) EmptyString.

Definition dq : string := chr 34.

(** ** Data model *)

(** One telemetry reading: the dictionary built by [_parse_nvidia_smi]. *)
Record gpu : Type := mk_gpu {
  index : Z;
  util : Z;
  mem_used : Z;
  mem_total : Z
}.

(** A [float]: the finite ones are rationals. *)
Inductive pyfloat : Type :=
| Finite (q : Q)
| PosInf
| NegInf
| NaN.

(** The namespace returned by [ap.parse_args()]. *)
Record args : Type := mk_args {
  interval : pyfloat;
  util_th : Z;
  mem_th : Z;
  once : bool;
  json : bool;
  email : bool;
  email_to : string;
  smtp_host : string;
  smtp_port : Z;
  smtp_user : string;
  smtp_pass : string;
  smtp_sender : string;
  smtp_ssl : bool;
  smtp_tls : bool
}.

(** The defaults declared with [add_argument]. *)
Definition default_args : args :=
  {| interval := Finite 5; util_th := 5; mem_th := 500;
     once := false; json := false; email := false; email_to := "";
     smtp_host := ""; smtp_port := 0; smtp_user := ""; smtp_pass := "";
     smtp_sender := ""; smtp_ssl := false; smtp_tls := false |}.

(** [os.environ], read through [os.getenv]. *)
Definition environ : Type := string -> option string.

Definition getenv (env : environ) (name default : string) : string :=
  match env name with
  | Some v => v
  | None => default
  end.

(** Exceptions that escape a function of the program. *)
Inductive exn : Type :=
| InvalidLiteral (s : string)   (* ValueError of [int] *)
| UnpackError                   (* ValueError of a tuple assignment *)
| Error (text : string).        (* raised by a collaborator; [text] is [str(e)] *)

Inductive res (A : Type) : Type :=
| Ok (a : A)
| Raised (e : exn).
Arguments Ok {A} a.
Arguments Raised {A} e.

Definition res_bind {A B : Type} (r : res A) (f : A -> res B) : res B :=
  match r with
  | Ok a => f a
  | Raised e => Raised e
  end.

Definition py_int (s : string) : res Z :=
  match PyStr.int s with
  | Some z => Ok z
  | None => Raised (InvalidLiteral s)
  end.

(** ** [_parse_nvidia_smi] *)

(** [map(int, parts)], consumed from left to right. *)
Fixpoint map_int (parts : list string) : res (list Z) :=
  match parts with
  | [] => Ok []
  | p :: ps =>
      res_bind (py_int p) (fun z =>
      res_bind (map_int ps) (fun zs => Ok (z :: zs)))
  end.

(** The body of the [for] loop: [Ok None] is [continue]. *)
Definition parse_line (line : string) : res (option gpu) :=
  let parts := map PyStr.strip (PyStr.split "," line) in
  if negb (List.length parts =? 4)%nat then Ok None
  else
    res_bind (map_int parts) (fun zs =>
    match zs with
    | [idx; u; mu; mt] => Ok (Some (mk_gpu idx u mu mt))
    | _ => Raised UnpackError
    end).

(** The [for] loop, with the list [gpus] it appends to. *)
Fixpoint parse_loop (lines : list string) (gpus : list gpu) : res (list gpu) :=
  match lines with
  | [] => Ok gpus
  | line :: rest =>
      res_bind (parse_line line) (fun r =>
      match r with
      | None => parse_loop rest gpus
      | Some g => parse_loop rest (gpus ++ [g])
      end)
  end.

Definition _parse_nvidia_smi (output : string) : res (list gpu) :=
  parse_loop (PyStr.splitlines (PyStr.strip output)) [].

(** ** [_is_gpu_idle] *)

Definition _is_gpu_idle (g : gpu) (util_th mem_th : Z) : bool :=
  (util g <=? util_th) && (mem_used g <=? mem_th).

(** ** Effects *)

Record email_message : Type := mk_message {
  msg_from : string;
  msg_to : string;
  msg_subject : string;
  msg_content : string
}.

(** The calls made on [smtplib]. *)
Inductive smtp_action : Type :=
| SMTP_SSL (host : string) (port : Z)
| SMTP (host : string) (port : Z)
| Starttls
| Login (user pass : string)
| SendMessage (msg : email_message).

(** What the program does to the outside, in order. *)
Inductive event : Type :=
| RunNvidiaSmi                 (* [subprocess.check_output] *)
| Print (line : string)        (* [print(line)] *)
| PrintErr (line : string)     (* [print(line, file=sys.stderr)] *)
| Bell                         (* the write of the bell character, and the flush *)
| Smtp (a : smtp_action)
| Sleep (secs : pyfloat).      (* [time.sleep(secs)] *)

(** Writes to the standard streams are taken to succeed; the [QUIT] that the
    [with] statement sends when it closes a connection is not recorded. *)

(** What the three collaborators and the clock answer during one check cycle:
    the output of [nvidia-smi] or the text of the exception it raises; for
    each call on [smtplib], nothing or the text of the exception it raises;
    for [time.sleep], nothing or the text of the exception it raises (a
    negative or non-finite length, an interrupt). *)
Record cycle_world : Type := mk_world {
  nvidia_smi : string + string;
  smtp : smtp_action -> option string;
  sleep : option string
}.

(** How a piece of [main] ends: it falls through, returns from [main], or
    lets an exception escape. *)
Inductive flow (A : Type) : Type :=
| Next (a : A)
| Return (code : Z)
| Raise (e : exn).
Arguments Next {A} a.
Arguments Return {A} code.
Arguments Raise {A} e.

(** Events emitted, then the way control continues. *)
Definition M (A : Type) : Type := list event * flow A.

Definition ret {A : Type} (a : A) : M A := ([], Next a).

Definition bind {A B : Type} (m : M A) (f : A -> M B) : M B :=
  match m with
  | (t, Next a) => let (t', r) := f a in ((t ++ t')%list, r)
  | (t, Return c) => (t, Return c)
  | (t, Raise e) => (t, Raise e)
  end.

Declare Scope prog_scope.
Delimit Scope prog_scope with prog.
Notation "x <- m ;; k" := (bind m (fun x => k))
  (at level 61, m at next level, right associativity) : prog_scope.
Notation "m ;;; k" := (bind m (fun _ => k))
  (at level 61, right associativity) : prog_scope.
#[local] Open Scope prog_scope.

Definition emit (e : event) : M unit := ([e], Next tt).
Definition print (line : string) : M unit := emit (Print line).
Definition return_ {A : Type} (code : Z) : M A := ([], Return code).

Definition lift {A : Type} (r : res A) : M A :=
  match r with
  | Ok a => ret a
  | Raised e => ([], Raise e)
  end.

(** Truthiness of a [str] and the [or] of two of them. *)
Definition truthy (s : string) : bool := negb (PyStr.is_empty s).
Definition str_or (a b : string) : string := if truthy a then a else b.
Definition or_none (s : string) : option string := if truthy s then Some s else None.

(** ** [_send_email] *)

(** One call on [smtplib]: it is recorded, and raises when the transport does. *)
Definition smtp_call (w : cycle_world) (a : smtp_action) : M unit :=
  match smtp w a with
  | None => emit (Smtp a)
  | Some text => ([Smtp a], Raise (Error text))
  end.

Definition login_if_given (w : cycle_world) (smtp_user smtp_pass : option string) : M unit :=
  match smtp_user, smtp_pass with
  | Some u, Some p => if truthy u && truthy p then smtp_call w (Login u p) else ret tt
  | _, _ => ret tt
  end.

Definition _send_email (w : cycle_world) (host : string) (port : Z)
    (smtp_user smtp_pass : option string) (sender : string) (recipients : list string)
    (subject body : string) (use_ssl use_tls : bool) : M unit :=
  let msg := mk_message sender (PyStr.join ", " recipients) subject body in
  if use_ssl then
    smtp_call w (SMTP_SSL host port) ;;;
    login_if_given w smtp_user smtp_pass ;;;
    smtp_call w (SendMessage msg)
  else
    smtp_call w (SMTP host port) ;;;
    (if use_tls then smtp_call w Starttls else ret tt) ;;;
    login_if_given w smtp_user smtp_pass ;;;
    smtp_call w (SendMessage msg).

(** [try: body except Exception as e: handler(str(e))] around a body that
    raises only what a collaborator raises. *)
Definition try_except {A : Type} (body : M A) (handler : string -> M A) : M A :=
  match body with
  | (t, Raise (Error text)) => let (t', r) := handler text in ((t ++ t')%list, r)
  | other => other
  end.

(** ** [main] *)

(** The line printed for one device. *)
Definition status_line (g : gpu) : string :=
  "GPU " ++ PyStr.str (index g) ++ ": util=" ++ PyStr.str (util g) ++ "% mem="
    ++ PyStr.str (mem_used g) ++ "/" ++ PyStr.str (mem_total g) ++ " MB".

(** [json.dumps] of one reading, of a list of them, and of the report. *)
Definition json_key (k : string) : string := dq ++ k ++ dq ++ ": ".

Definition json_gpu (g : gpu) : string :=
  "{" ++ json_key "index" ++ PyStr.str (index g) ++ ", "
      ++ json_key "util" ++ PyStr.str (util g) ++ ", "
      ++ json_key "mem_used" ++ PyStr.str (mem_used g) ++ ", "
      ++ json_key "mem_total" ++ PyStr.str (mem_total g) ++ "}".

Definition json_list (gs : list gpu) : string :=
  "[" ++ PyStr.join ", " (map json_gpu gs) ++ "]".

Definition json_report (gpus idle : list gpu) : string :=
  "{" ++ json_key "gpus" ++ json_list gpus ++ ", " ++ json_key "idle" ++ json_list idle ++ "}".

(** The status report of a cycle. *)
Definition report (a : args) (gpus idle : list gpu) : list event :=
  if json a then [Print (json_report gpus idle)]
  else map (fun g => Print (status_line g)) gpus.

Definition classify (a : args) (gpus : list gpu) : list gpu :=
  filter (fun g => _is_gpu_idle g (util_th a) (mem_th a)) gpus.

Definition idle_ids (idle : list gpu) : string :=
  PyStr.join "," (map (fun g => PyStr.str (index g)) idle).

Definition alert_line (idle : list gpu) : string :=
  "ALERT: idle GPU(s) detected -> " ++ idle_ids idle.

(** The SMTP settings as the cycle resolves them. *)
Record smtp_config : Type := mk_config {
  cfg_host : string;
  cfg_port : Z;
  cfg_user : string;
  cfg_pass : string;
  cfg_sender : string;
  cfg_recipients : list string
}.

Definition resolve_port (a : args) (env : environ) : res Z :=
  if negb (smtp_port a =? 0) then Ok (smtp_port a)
  else
    let v := getenv env "SMTP_PORT" "0" in
    if truthy v then py_int v else Ok 0.

Definition resolve_recipients (a : args) (env : environ) : list string :=
  filter truthy
    (map PyStr.strip (PyStr.split "," (str_or (email_to a) (getenv env "SMTP_TO" "")))).

(** The six assignments that open the [if args.email:] block. *)
Definition resolve_smtp (a : args) (env : environ) : res smtp_config :=
  let host := str_or (smtp_host a) (getenv env "SMTP_HOST" "") in
  res_bind (resolve_port a env) (fun port =>
  let user := str_or (smtp_user a) (getenv env "SMTP_USER" "") in
  let pass := str_or (smtp_pass a) (getenv env "SMTP_PASS" "") in
  let sender := str_or (smtp_sender a) (getenv env "SMTP_SENDER" user) in
  Ok (mk_config host port user pass sender (resolve_recipients a env))).

Definition config_complete (c : smtp_config) : bool :=
  truthy (cfg_host c) && negb (cfg_port c =? 0) && truthy (cfg_sender c)
    && negb (List.length (cfg_recipients c) =? 0)%nat.

(** The call of [_send_email] made by a cycle. *)
Definition send_alert (a : args) (w : cycle_world) (c : smtp_config)
    (gpus idle : list gpu) : M unit :=
  let subject := "GPU idle alert: " ++ idle_ids idle in
  let body := PyStr.join nl (map status_line gpus) in
  _send_email w (cfg_host c) (cfg_port c) (or_none (cfg_user c)) (or_none (cfg_pass c))
    (cfg_sender c) (cfg_recipients c) subject body (smtp_ssl a) (smtp_tls a).

(** The [if args.email:] block. *)
Definition email_block (a : args) (env : environ) (w : cycle_world)
    (gpus idle : list gpu) : M unit :=
  c <- lift (resolve_smtp a env) ;;
  if config_complete c then
    try_except
      (send_alert a w c gpus idle ;;; print "Email alert sent.")
      (fun text => print ("Email alert failed: " ++ text))
  else print "Email alert skipped: missing SMTP config.".

(** The [if idle: ... else: ...] statement. *)
Definition alert_block (a : args) (env : environ) (w : cycle_world)
    (gpus idle : list gpu) : M unit :=
  if negb (List.length idle =? 0)%nat then
    print (alert_line idle) ;;;
    emit Bell ;;;
    (if email a then email_block a env w gpus idle else ret tt) ;;;
    if once a then return_ 0 else ret tt
  else
    if once a then return_ 1 else ret tt.

(** The call of [_run_nvidia_smi] and its [except] clause. *)
Definition poll (w : cycle_world) : M string :=
  match nvidia_smi w with
  | inl out => ([RunNvidiaSmi], Next out)
  | inr text =>
      ([RunNvidiaSmi; PrintErr ("ERROR: failed to run nvidia-smi: " ++ text)], Return 2)
  end.

Definition time_sleep (w : cycle_world) (secs : pyfloat) : M unit :=
  match sleep w with
  | None => emit (Sleep secs)
  | Some text => ([Sleep secs], Raise (Error text))
  end.

(** One iteration of [while True:]. *)
Definition check_cycle (a : args) (env : environ) (w : cycle_world) : M unit :=
  out <- poll w ;;
  gpus <- lift (_parse_nvidia_smi out) ;;
  let idle := classify a gpus in
  (report a gpus idle, Next tt) ;;;
  alert_block a env w gpus idle ;;;
  time_sleep w (interval a).

(** How far a run has got. *)
Inductive status : Type :=
| Running                (* the loop is still going *)
| Exited (code : Z)      (* [main] returned [code] *)
| Crashed (e : exn).     (* an exception left [main] *)

(** The events of a run, one list per check cycle, and its status.  [W n] is
    what the outside answers during cycle [n]; [fuel] bounds the number of
    cycles looked at. *)
Fixpoint main_loop (fuel : nat) (a : args) (env : environ)
    (W : nat -> cycle_world) (n : nat) : list (list event) * status :=
  match fuel with
  | O => ([], Running)
  | S fuel' =>
      match check_cycle a env (W n) with
      | (t, Next _) =>
          let (ts, st) := main_loop fuel' a env W (S n) in (t :: ts, st)
      | (t, Return c) => ([t], Exited c)
      | (t, Raise e) => ([t], Crashed e)
      end
  end.

Definition main (a : args) (env : environ) (W : nat -> cycle_world) (fuel : nat)
    : list (list event) * status :=
  main_loop fuel a env W 0%nat.

(** ** Observations on the events of a cycle *)

Definition is_alert (e : event) : bool :=
  match e with
  | Print line => String.prefix "ALERT: idle GPU(s) detected" line
  | _ => false
  end.

Definition is_bell (e : event) : bool :=
  match e with Bell => true | _ => false end.

Definition is_smtp (e : event) : bool :=
  match e with Smtp _ => true | _ => false end.

Definition is_sleep (e : event) : bool :=
  match e with Sleep _ => true | _ => false end.

Definition is_poll (e : event) : bool :=
  match e with RunNvidiaSmi => true | _ => false end.

(** The events of the [if args.email:] block: calls on [smtplib] and the
    three lines about the email alert. *)
Definition is_mail (e : event) : bool :=
  match e with
  | Smtp _ => true
  | Print line => String.prefix "Email alert " line
  | _ => false
  end.

Definition non_mail (e : event) : bool := negb (is_mail e).

(** What a cycle shows of the telemetry and of its decision: everything but
    the mail events and the sleep. *)
Definition shown (e : event) : bool := negb (is_mail e) && negb (is_sleep e).

(** Events that are neither a poll nor a sleep. *)
Definition quiet (e : event) : bool := negb (is_sleep e) && negb (is_poll e).

(** The devices parsed in a cycle: none when the telemetry source or the
    parser raises. *)
Definition cycle_devices (w : cycle_world) : list gpu :=
  match nvidia_smi w with
  | inl out => match _parse_nvidia_smi out with Ok gpus => gpus | Raised _ => [] end
  | inr _ => []
  end.

(** The alert of a cycle: the line and the bell, or nothing. *)
Definition alert_events (idle : list gpu) : list event :=
  match idle with
  | [] => []
  | _ :: _ => [Print (alert_line idle); Bell]
  end.

(** The poll, the status report and the alert of a cycle, from the arguments
    and the answer of the telemetry source alone. *)
Definition cycle_report (a : args) (answer : string + string) : list event :=
  match answer with
  | inr text => [RunNvidiaSmi; PrintErr ("ERROR: failed to run nvidia-smi: " ++ text)]
  | inl out =>
      match _parse_nvidia_smi out with
      | Raised _ => [RunNvidiaSmi]
      | Ok gpus =>
          (RunNvidiaSmi :: report a gpus (classify a gpus)
             ++ alert_events (classify a gpus))%list
      end
  end.

(** The [if args.email:] statement. *)
Definition mail_part (a : args) (env : environ) (w : cycle_world)
    (gpus idle : list gpu) : M unit :=
  if email a then email_block a env w gpus idle else ret tt.

(** The end of the loop body: [if args.once: return code], then the sleep. *)
Definition cycle_end (a : args) (w : cycle_world) (code : Z) : M unit :=
  if once a then return_ code else time_sleep w (interval a).

(** The exit code of [--once] for a list of idle devices. *)
Definition once_code (idle : list gpu) : Z :=
  match idle with [] => 1 | _ :: _ => 0 end.

(** The ways the [if args.email:] statement of a cycle can go, with the events
    it makes and the exception that escapes it, if any. *)
Inductive mail_case (a : args) (env : environ) (w : cycle_world) (gpus idle : list gpu)
    : list event -> option exn -> Prop :=
| mail_off :
    idle = [] \/ email a = false ->
    mail_case a env w gpus idle [] None
| mail_port_error (e : exn) :
    idle <> [] -> email a = true -> resolve_smtp a env = Raised e ->
    mail_case a env w gpus idle [] (Some e)
| mail_skipped (c : smtp_config) :
    idle <> [] -> email a = true -> resolve_smtp a env = Ok c ->
    config_complete c = false ->
    mail_case a env w gpus idle [Print "Email alert skipped: missing SMTP config."] None
| mail_sent (c : smtp_config) (sent : list event) :
    idle <> [] -> email a = true -> resolve_smtp a env = Ok c ->
    config_complete c = true ->
    send_alert a w c gpus idle = (sent, Next tt) ->
    forallb is_smtp sent = true ->
    mail_case a env w gpus idle (sent ++ [Print "Email alert sent."]) None
| mail_failed (c : smtp_config) (sent : list event) (text : string) :
    idle <> [] -> email a = true -> resolve_smtp a env = Ok c ->
    config_complete c = true ->
    send_alert a w c gpus idle = (sent, Raise (Error text)) ->
    forallb is_smtp sent = true ->
    mail_case a env w gpus idle (sent ++ [Print ("Email alert failed: " ++ text)]) None.

(** The ways one check cycle can go. *)
Inductive cycle_case (a : args) (env : environ) (w : cycle_world)
    : list event -> flow unit -> Prop :=
| cycle_poll_error (text : string) :
    nvidia_smi w = inr text ->
    cycle_case a env w
      [RunNvidiaSmi; PrintErr ("ERROR: failed to run nvidia-smi: " ++ text)] (Return 2)
| cycle_parse_error (out : string) (e : exn) :
    nvidia_smi w = inl out -> _parse_nvidia_smi out = Raised e ->
    cycle_case a env w [RunNvidiaSmi] (Raise e)
| cycle_mail_error (out : string) (gpus : list gpu) (e : exn) :
    nvidia_smi w = inl out -> _parse_nvidia_smi out = Ok gpus ->
    mail_case a env w gpus (classify a gpus) [] (Some e) ->
    cycle_case a env w
      (RunNvidiaSmi :: report a gpus (classify a gpus) ++ alert_events (classify a gpus))
      (Raise e)
| cycle_once (out : string) (gpus : list gpu) (mail : list event) :
    nvidia_smi w = inl out -> _parse_nvidia_smi out = Ok gpus ->
    mail_case a env w gpus (classify a gpus) mail None ->
    once a = true ->
    cycle_case a env w
      (RunNvidiaSmi :: report a gpus (classify a gpus) ++ alert_events (classify a gpus)
         ++ mail)
      (Return (once_code (classify a gpus)))
| cycle_sleep (out : string) (gpus : list gpu) (mail : list event) :
    nvidia_smi w = inl out -> _parse_nvidia_smi out = Ok gpus ->
    mail_case a env w gpus (classify a gpus) mail None ->
    once a = false ->
    cycle_case a env w
      (RunNvidiaSmi :: report a gpus (classify a gpus) ++ alert_events (classify a gpus)
         ++ mail ++ [Sleep (interval a)])
      (match sleep w with None => Next tt | Some text => Raise (Error text) end).

(** A run of calls on [smtplib]: it records only such calls, and either
    completes or raises what the transport raised. *)
Definition smtp_run (m : M unit) : Prop :=
  exists sent, forallb is_smtp sent = true /\
    (m = (sent, Next tt) \/ exists text, m = (sent, Raise (Error text))).

(** ** Well-formed telemetry, for the statement about the parser *)

(** White space that can surround a field inside a line: what [str.strip]
    removes and [str.splitlines] does not split at. *)
Definition isblank (c : ascii) : bool := PyStr.isspace c && negb (PyStr.islinebreak c).

Definition not_linebreak (c : ascii) : bool := negb (PyStr.islinebreak c).

(** The integer a decimal literal denotes, as the standard library reads it:
    digits, with a minus sign before them or not. *)
Definition literal_value (lit : string) : option Z :=
  option_map Z.of_int (NilZero.int_of_string lit).

(** A field of a line: a decimal literal with blanks around it. *)
Record field : Type := mk_field {
  lead : string;
  literal : string;
  trail : string
}.

Definition field_text (f : field) : string := lead f ++ literal f ++ trail f.

Definition field_ok (f : field) : bool :=
  PyStr.all_chars isblank (lead f) && PyStr.all_chars isblank (trail f)
    && match literal_value (literal f) with Some _ => true | None => false end.

Definition field_value (f : field) : Z :=
  match literal_value (literal f) with Some z => z | None => 0 end.

(** A line of the telemetry: four fields, or any text without a line boundary
    that does not split into four fields at its commas. *)
Inductive input_line : Type :=
| Reading (f1 f2 f3 f4 : field)
| Other (text : string).

Definition line_text (l : input_line) : string :=
  match l with
  | Reading f1 f2 f3 f4 =>
      field_text f1 ++ "," ++ field_text f2 ++ "," ++ field_text f3 ++ "," ++ field_text f4
  | Other text => text
  end.

Definition line_ok (l : input_line) : bool :=
  match l with
  | Reading f1 f2 f3 f4 => field_ok f1 && field_ok f2 && field_ok f3 && field_ok f4
  | Other text =>
      PyStr.all_chars not_linebreak text
        && negb (List.length (PyStr.split "," text) =? 4)%nat
  end.

(** The readings of the four-field lines, in the order of the lines. *)
Fixpoint readings (ls : list input_line) : list gpu :=
  match ls with
  | [] => []
  | Reading f1 f2 f3 f4 :: rest =>
      mk_gpu (field_value f1) (field_value f2) (field_value f3) (field_value f4)
        :: readings rest
  | Other _ :: rest => readings rest
  end.

(** The text [nvidia-smi] writes: every line ended by a line feed. *)
Definition terminated (ls : list input_line) : string :=
  fold_right (fun l rest => line_text l ++ nl ++ rest) "" ls.

(** The characters of a decimal literal. *)
Definition literal_char (c : ascii) : bool := PyStr.isdecimal c || Ascii.eqb c "-".

(** Characters other than the separator [sep]. *)
Definition not_sep (sep c : ascii) : bool := negb (Ascii.eqb c sep).

(** Lists of lines that the loop of the parser cannot tell apart. *)
Definition same_parse (L L' : list string) : Prop :=
  forall acc, parse_loop L acc = parse_loop L' acc.

(** No line holds a line boundary. *)
Definition lines_ok (L : list string) : bool :=
  forallb (PyStr.all_chars not_linebreak) L.

(** The last line of a list, if any, is not empty. *)
Fixpoint ends_nonempty (L : list string) : bool :=
  match L with
  | [] => true
  | [l] => negb (PyStr.is_empty l)
  | _ :: ts => ends_nonempty ts
  end.

(** Apply [f] to the first, or to the last, element of a list. *)
Definition map_first {A : Type} (f : A -> A) (l : list A) : list A :=
  match l with
  | [] => []
  | x :: xs => f x :: xs
  end.

Fixpoint map_last {A : Type} (f : A -> A) (l : list A) : list A :=
  match l with
  | [] => []
  | [x] => [f x]
  | x :: xs => x :: map_last f xs
  end.

(** ** Sample inputs *)

(** No environment variable is set. *)
Definition no_env : environ := fun _ => None.

(** One busy device, a mail transport that accepts everything, a sleep that
    returns. *)
Definition busy_answer : cycle_world :=
  mk_world (inl ("0, 50, 1000, 8000" ++ nl)) (fun _ => None) None.

(** The same answer in every cycle. *)
Definition steady_world : nat -> cycle_world := fun _ => busy_answer.

(** One idle and one busy device. *)
Definition idle_answer : cycle_world :=
  mk_world (inl ("0, 3, 120, 8000" ++ nl ++ "1, 97, 7000, 8000" ++ nl)) (fun _ => None) None.

(** [--once --email] with no [--smtp_port], and [SMTP_PORT=abc]. *)
Definition once_email_args : args :=
  {| interval := Finite 5; util_th := 5; mem_th := 500;
     once := true; json := false; email := true; email_to := "ops@example.org";
     smtp_host := "mail.example.org"; smtp_port := 0; smtp_user := ""; smtp_pass := "";
     smtp_sender := "gpu@example.org"; smtp_ssl := false; smtp_tls := false |}.

Definition malformed_port_env : environ :=
  fun name => if String.eqb name "SMTP_PORT" then Some "abc" else None.

(** [--email] with complete settings on the command line. *)
Definition mail_args : args :=
  {| interval := Finite 5; util_th := 5; mem_th := 500;
     once := false; json := false; email := true; email_to := "ops@example.org";
     smtp_host := "mail.example.org"; smtp_port := 25; smtp_user := ""; smtp_pass := "";
     smtp_sender := "gpu@example.org"; smtp_ssl := false; smtp_tls := false |}.

Definition mail_config : smtp_config :=
  mk_config "mail.example.org" 25 "" "" "gpu@example.org" ["ops@example.org"].

(** The idle answer, with a mail server that refuses the connection. *)
Definition refusing_answer : cycle_world :=
  mk_world (inl ("0, 3, 120, 8000" ++ nl ++ "1, 97, 7000, 8000" ++ nl))
    (fun act => match act with
                | SMTP _ _ => Some "Connection refused"
                | _ => None
                end)
    None.

Definition idle_readings : list gpu := [mk_gpu 0 3 120 8000; mk_gpu 1 97 7000 8000].

(** A busy cycle first, idle cycles after it. *)
Definition late_idle_world : nat -> cycle_world :=
  fun n => match n with O => busy_answer | S _ => idle_answer end.

(** [SMTP_PORT=587] and nothing else. *)
Definition port_env : environ :=
  fun name => if String.eqb name "SMTP_PORT" then Some "587" else None.

(** Two readings around a blank line and a line of three fields. *)
Definition sample_lines : list input_line :=
  [ Reading (mk_field "" "0" "") (mk_field " " "3" "") (mk_field " " "120" "")
      (mk_field " " "8000" " ");
    Other "";
    Other "1, 2, 3";
    Reading (mk_field " " "1" "") (mk_field "" "-97" " ") (mk_field " " "007" "")
      (mk_field " " "8000" "") ].

(** ** The calls of [_send_email], as data *)

(** The call of [s.login], when there is one. *)
Definition login_plan (smtp_user smtp_pass : option string) : list smtp_action :=
  match smtp_user, smtp_pass with
  | Some u, Some p => if truthy u && truthy p then [Login u p] else []
  | _, _ => []
  end.

(** The calls [_send_email] makes when none of them raises. *)
Definition send_plan (host : string) (port : Z) (smtp_user smtp_pass : option string)
    (sender : string) (recipients : list string) (subject body : string)
    (use_ssl use_tls : bool) : list smtp_action :=
  ((if use_ssl then [SMTP_SSL host port]
    else SMTP host port :: (if use_tls then [Starttls] else []))
   ++ login_plan smtp_user smtp_pass
   ++ [SendMessage (mk_message sender (PyStr.join ", " recipients) subject body)])%list.

(** A list of calls made one after the other, up to the first that raises. *)
Fixpoint run_plan (w : cycle_world) (plan : list smtp_action) : M unit :=
  match plan with
  | [] => ([], Next tt)
  | act :: rest =>
      match smtp w act with
      | None => let (t, r) := run_plan w rest in (Smtp act :: t, r)
      | Some text => ([Smtp act], Raise (Error text))
      end
  end.

(** ** Further observations *)

(** The expression that turns [--email_to] or [SMTP_TO] into recipients,
    applied to a text. *)
Definition parse_recipients (s : string) : list string :=
  filter truthy (map PyStr.strip (PyStr.split "," s)).

(** The number of commas of a text. *)
Fixpoint commas (s : string) : nat :=
  match s with
  | EmptyString => O
  | String c r => if Ascii.eqb c "," then S (commas r) else commas r
  end.

(** The lines the parser does not skip. *)
Definition four_fields (line : string) : bool :=
  (List.length (PyStr.split "," line) =? 4)%nat.

(** A field that [int] rejects. *)
Definition bad_field (line : string) : Prop :=
  exists fld, In fld (map PyStr.strip (PyStr.split "," line)) /\ PyStr.int fld = None.

(** The line ending of a text written on Windows. *)
Definition crlf : string := cr ++ nl.

(** The environment variables the program reads. *)
Definition smtp_variables : list string :=
  ["SMTP_HOST"; "SMTP_PORT"; "SMTP_USER"; "SMTP_PASS"; "SMTP_SENDER"; "SMTP_TO"].

Definition is_stderr (e : event) : bool :=
  match e with PrintErr _ => true | _ => false end.

(** [--email] with a user and a password, over STARTTLS. *)
Definition login_args : args :=
  {| interval := Finite 5; util_th := 5; mem_th := 500;
     once := true; json := false; email := true; email_to := "a@b, c@d";
     smtp_host := "h"; smtp_port := 25; smtp_user := "u"; smtp_pass := "p";
     smtp_sender := ""; smtp_ssl := false; smtp_tls := true |}.

Definition login_config : smtp_config := mk_config "h" 25 "u" "p" "u" ["a@b"; "c@d"].


(** [SMTP_TO] holds nothing but commas and blanks. *)
Definition blank_to_env : environ :=
  fun name => if String.eqb name "SMTP_TO" then Some " , ," else None.

(** Thresholds under which every device of the samples is idle. *)
Definition loose_args : args :=
  {| interval := Finite 5; util_th := 100; mem_th := 10000;
     once := false; json := false; email := false; email_to := "";
     smtp_host := ""; smtp_port := 0; smtp_user := ""; smtp_pass := "";
     smtp_sender := ""; smtp_ssl := false; smtp_tls := false |}.

(** A telemetry source that prints only white space. *)
Definition blank_answer : cycle_world :=
  mk_world (inl (nl ++ " ")) (fun _ => None) None.

(** A device whose utilization is not reported. *)
Definition na_answer : cycle_world :=
  mk_world (inl ("0, [N/A], 120, 8000" ++ nl)) (fun _ => None) None.

(** A busy cycle first, then the unreported utilization. *)
Definition late_na_world : nat -> cycle_world :=
  fun n => match n with O => busy_answer | S _ => na_answer end.


(** A busy cycle whose sleep is interrupted. *)
Definition interrupted_answer : cycle_world :=
  mk_world (inl ("0, 50, 1000, 8000" ++ nl)) (fun _ => None) (Some "interrupted").

(** * Properties *)

(** ** The model agrees with the interpreter on sample inputs *)

Example splitlines_ex1 :
  PyStr.splitlines ("a" ++ cr ++ nl ++ "b" ++ cr ++ cr ++ nl ++ "c") = ["a"; "b"; ""; "c"].
Proof. reflexivity. Qed.

Example splitlines_ex2 :
  PyStr.splitlines "" = [] /\ PyStr.splitlines ("a" ++ nl) = ["a"] /\
  PyStr.splitlines ("a" ++ nl ++ nl ++ "b") = ["a"; ""; "b"] /\
  PyStr.splitlines nl = [""] /\ PyStr.splitlines ("a" ++ nl ++ cr) = ["a"; ""].
Proof. repeat split. Qed.

Example split_ex : PyStr.split "," "" = [""] /\ PyStr.split "," "a,,b," = ["a"; ""; "b"; ""].
Proof. split; reflexivity. Qed.

Example strip_ex : PyStr.strip (chr 28 ++ " 5 " ++ chr 160 ++ nl) = "5" /\ PyStr.strip "  " = "".
Proof. split; reflexivity. Qed.

Example int_ex :
  map PyStr.int [chr 28 ++ "5"; " 5 "; chr 133 ++ "5"; "1_0"; "_1"; "1_"; "1__0"; "+5"; "-5";
                 "- 5"; "+-5"; ""; "007"; "-0"; "5" ++ nl; "abc"; "[N/A]"]
  = [None; Some 5; Some 5; Some 10; None; None; None; Some 5; Some (-5);
     None; None; None; Some 7; Some 0; Some 5; None; None].
Proof. reflexivity. Qed.

Example str_ex : map PyStr.str [0; 7; -12; 1000] = ["0"; "7"; "-12"; "1000"].
Proof. reflexivity. Qed.

(** A cycle with one idle device, [--email], STARTTLS and a login. *)
Example cycle_ex_mail_sent :
  check_cycle
    {| interval := Finite 5; util_th := 5; mem_th := 500;
       once := true; json := false; email := true; email_to := "a@b, c@d";
       smtp_host := "h"; smtp_port := 25; smtp_user := "u"; smtp_pass := "p";
       smtp_sender := ""; smtp_ssl := false; smtp_tls := true |}
    no_env idle_answer
  = ([RunNvidiaSmi;
      Print "GPU 0: util=3% mem=120/8000 MB";
      Print "GPU 1: util=97% mem=7000/8000 MB";
      Print "ALERT: idle GPU(s) detected -> 0";
      Bell;
      Smtp (SMTP "h" 25);
      Smtp Starttls;
      Smtp (Login "u" "p");
      Smtp (SendMessage
              (mk_message "u" "a@b, c@d" "GPU idle alert: 0"
                 ("GPU 0: util=3% mem=120/8000 MB" ++ nl
                    ++ "GPU 1: util=97% mem=7000/8000 MB")));
      Print "Email alert sent."],
     Return 0).
Proof. reflexivity. Qed.

(** A telemetry source that cannot be run, and a reading that is not a
    number. *)
Example cycle_ex_failures :
  check_cycle default_args no_env (mk_world (inr "No such file") (fun _ => None) None)
  = ([RunNvidiaSmi; PrintErr "ERROR: failed to run nvidia-smi: No such file"], Return 2) /\
  check_cycle default_args no_env
    (mk_world (inl ("0, [N/A], 120, 8000" ++ nl)) (fun _ => None) None)
  = ([RunNvidiaSmi], Raise (InvalidLiteral "[N/A]")).
Proof. split; reflexivity. Qed.

(** Three cycles of the default run on a busy device. *)
Example main_ex_steady :
  main default_args no_env steady_world 3
  = (repeat [RunNvidiaSmi; Print "GPU 0: util=50% mem=1000/8000 MB"; Sleep (Finite 5)] 3,
     Running).
Proof. reflexivity. Qed.

(** ** Classification *)

Lemma is_gpu_idle_true (g : gpu) (uth mth : Z) :
  _is_gpu_idle g uth mth = true <-> util g <= uth /\ mem_used g <= mth.
Proof.
  unfold _is_gpu_idle.
  rewrite andb_true_iff, !Z.leb_le.
  reflexivity.
Qed.

(** C1: a reading is classified idle exactly when its utilization is at most
    [util_th] and its used memory is at most [mem_th]; in every other case it
    is classified busy.  The devices a cycle reports as idle are exactly the
    parsed ones that satisfy both bounds. *)
Theorem C1_idle_iff_within_thresholds :
  forall (g : gpu) (uth mth : Z),
    (_is_gpu_idle g uth mth = true <-> util g <= uth /\ mem_used g <= mth) /\
    (_is_gpu_idle g uth mth = false <-> ~ (util g <= uth /\ mem_used g <= mth)) /\
    (forall (a : args) (gpus : list gpu),
        In g (classify a gpus) <->
        In g gpus /\ util g <= util_th a /\ mem_used g <= mem_th a).
Proof.
  intros g uth mth.
  split; [apply is_gpu_idle_true|].
  split.
  - rewrite <- is_gpu_idle_true.
    destruct (_is_gpu_idle g uth mth); split; intro H; congruence.
  - intros a gpus.
    unfold classify.
    rewrite filter_In, is_gpu_idle_true.
    reflexivity.
Qed.

(** ** The shape of one check cycle *)

Lemma smtp_run_ret : smtp_run (ret tt).
Proof. exists []. split; [reflexivity | left; reflexivity]. Qed.

Lemma smtp_run_call (w : cycle_world) (act : smtp_action) : smtp_run (smtp_call w act).
Proof.
  unfold smtp_call. exists [Smtp act]. split; [reflexivity|].
  destruct (smtp w act) as [text|]; [right; exists text | left]; reflexivity.
Qed.

Lemma smtp_run_seq (m k : M unit) : smtp_run m -> smtp_run k -> smtp_run (m ;;; k).
Proof.
  intros (s1 & H1 & [-> | (t1 & ->)]) (s2 & H2 & Hk).
  - exists (s1 ++ s2)%list. split.
    + rewrite forallb_app, H1, H2. reflexivity.
    + destruct Hk as [-> | (t2 & ->)]; [left | right; exists t2]; reflexivity.
  - exists s1. split; [assumption | right; exists t1; reflexivity].
Qed.

Lemma smtp_run_login (w : cycle_world) (u p : option string) :
  smtp_run (login_if_given w u p).
Proof.
  unfold login_if_given.
  destruct u as [u|], p as [p|]; try apply smtp_run_ret.
  destruct (truthy u && truthy p); [apply smtp_run_call | apply smtp_run_ret].
Qed.

Lemma smtp_run_send_email (w : cycle_world) host port u p sender rcpts subject body ssl tls :
  smtp_run (_send_email w host port u p sender rcpts subject body ssl tls).
Proof.
  unfold _send_email.
  destruct ssl.
  - repeat apply smtp_run_seq; auto using smtp_run_call, smtp_run_login.
  - repeat apply smtp_run_seq; auto using smtp_run_call, smtp_run_login.
    destruct tls; [apply smtp_run_call | apply smtp_run_ret].
Qed.

(** The three ways the [if args.email:] block can go. *)
Lemma email_block_cases (a : args) (env : environ) (w : cycle_world) (gpus idle : list gpu) :
  (exists e, resolve_smtp a env = Raised e /\
             email_block a env w gpus idle = ([], Raise e)) \/
  (exists c, resolve_smtp a env = Ok c /\ config_complete c = false /\
             email_block a env w gpus idle
             = ([Print "Email alert skipped: missing SMTP config."], Next tt)) \/
  (exists c sent, resolve_smtp a env = Ok c /\ config_complete c = true /\
      forallb is_smtp sent = true /\
      ((send_alert a w c gpus idle = (sent, Next tt) /\
        email_block a env w gpus idle = ((sent ++ [Print "Email alert sent."])%list, Next tt)) \/
       (exists text, send_alert a w c gpus idle = (sent, Raise (Error text)) /\
        email_block a env w gpus idle
        = ((sent ++ [Print ("Email alert failed: " ++ text)])%list, Next tt)))).
Proof.
  unfold email_block.
  destruct (resolve_smtp a env) as [c|e]; simpl.
  - right.
    destruct (config_complete c) eqn:Hc.
    + right.
      destruct (smtp_run_send_email w (cfg_host c) (cfg_port c) (or_none (cfg_user c))
                  (or_none (cfg_pass c)) (cfg_sender c) (cfg_recipients c)
                  ("GPU idle alert: " ++ idle_ids idle)
                  (PyStr.join nl (map status_line gpus)) (smtp_ssl a) (smtp_tls a))
        as (sent & Hs & Hrun).
      fold (send_alert a w c gpus idle) in Hrun.
      exists c, sent. split; [reflexivity|]. split; [assumption|]. split; [assumption|].
      destruct Hrun as [Hrun | (text & Hrun)]; rewrite Hrun.
      * left. split; reflexivity.
      * right. exists text. split; reflexivity.
    + left. exists c. split; [reflexivity|]. split; [assumption | reflexivity].
  - left. exists e. split; reflexivity.
Qed.

Lemma check_cycle_poll_error (a : args) (env : environ) (w : cycle_world) (text : string) :
  nvidia_smi w = inr text ->
  check_cycle a env w
  = ([RunNvidiaSmi; PrintErr ("ERROR: failed to run nvidia-smi: " ++ text)], Return 2).
Proof. intro H. unfold check_cycle, poll. rewrite H. reflexivity. Qed.

Lemma check_cycle_parse_error (a : args) (env : environ) (w : cycle_world) out e :
  nvidia_smi w = inl out -> _parse_nvidia_smi out = Raised e ->
  check_cycle a env w = ([RunNvidiaSmi], Raise e).
Proof. intros H1 H2. unfold check_cycle, poll. rewrite H1. simpl. rewrite H2. reflexivity. Qed.

(** A cycle whose telemetry was read and parsed: status report, alert, mail,
    then the end of the loop body. *)
Lemma check_cycle_parsed (a : args) (env : environ) (w : cycle_world) out gpus :
  nvidia_smi w = inl out -> _parse_nvidia_smi out = Ok gpus ->
  check_cycle a env w =
    let idle := classify a gpus in
    let head := (RunNvidiaSmi :: report a gpus idle ++ alert_events idle)%list in
    match idle with
    | [] => ((head ++ fst (cycle_end a w 1))%list, snd (cycle_end a w 1))
    | _ :: _ =>
        match mail_part a env w gpus idle with
        | (mail, Next _) =>
            ((head ++ mail ++ fst (cycle_end a w 0))%list, snd (cycle_end a w 0))
        | (mail, Return c) => ((head ++ mail)%list, Return c)
        | (mail, Raise e) => ((head ++ mail)%list, Raise e)
        end
    end.
Proof.
  intros H1 H2. unfold check_cycle, poll. rewrite H1. simpl. rewrite H2. simpl.
  unfold alert_block, cycle_end.
  fold (mail_part a env w gpus (classify a gpus)).
  destruct (classify a gpus) as [|g idle]; simpl.
  - rewrite app_nil_r.
    destruct (once a); simpl.
    + rewrite app_nil_r. reflexivity.
    + destruct (time_sleep w (interval a)) as [t r]. reflexivity.
  - destruct (mail_part a env w gpus (g :: idle)) as [mail [[]|c|e]]; simpl.
    + destruct (once a); simpl.
      * rewrite <- !app_assoc. simpl. rewrite !app_nil_r. reflexivity.
      * destruct (time_sleep w (interval a)) as [t r]. simpl.
        rewrite <- !app_assoc. simpl. rewrite ?app_nil_r. reflexivity.
    + rewrite <- !app_assoc. reflexivity.
    + rewrite <- !app_assoc. reflexivity.
Qed.

Lemma is_smtp_is_mail (evs : list event) :
  forallb is_smtp evs = true -> forallb is_mail evs = true.
Proof.
  induction evs as [|e evs IH]; simpl; [reflexivity|].
  rewrite !andb_true_iff. intros [He Hevs].
  split; [destruct e; simpl in *; congruence | auto].
Qed.

(** The [if args.email:] statement either falls through, having made only
    mail events, or lets the [ValueError] of the port setting escape before
    any event. *)
Lemma mail_part_cases (a : args) (env : environ) (w : cycle_world) (gpus idle : list gpu) :
  (exists mail, mail_part a env w gpus idle = (mail, Next tt) /\
                forallb is_mail mail = true) \/
  (exists e, mail_part a env w gpus idle = ([], Raise e) /\
             email a = true /\ resolve_smtp a env = Raised e).
Proof.
  unfold mail_part.
  destruct (email a) eqn:Hemail.
  - destruct (email_block_cases a env w gpus idle)
      as [(e & Hr & ->) | [(c & Hr & Hc & ->) | (c & sent & Hr & Hc & Hs & Hsend)]].
    + right. exists e. auto.
    + left. eexists. split; reflexivity.
    + left. apply is_smtp_is_mail in Hs.
      destruct Hsend as [(_ & ->) | (text & _ & ->)]; eexists;
        (split; [reflexivity|]); rewrite forallb_app, Hs; reflexivity.
  - left. exists []. split; reflexivity.
Qed.

Lemma cycle_end_cases (a : args) (w : cycle_world) (code : Z) :
  (once a = true /\ cycle_end a w code = ([], Return code)) \/
  (once a = false /\ sleep w = None /\
   cycle_end a w code = ([Sleep (interval a)], Next tt)) \/
  (once a = false /\ exists text, sleep w = Some text /\
   cycle_end a w code = ([Sleep (interval a)], Raise (Error text))).
Proof.
  unfold cycle_end, time_sleep.
  destruct (once a); [left; auto | right].
  destruct (sleep w) as [text|]; [right | left]; eauto.
Qed.

(** Events of a cycle whose telemetry was read and parsed. *)
Lemma cycle_events_parsed (a : args) (env : environ) (w : cycle_world) out gpus :
  nvidia_smi w = inl out -> _parse_nvidia_smi out = Ok gpus ->
  exists mail tail,
    fst (check_cycle a env w)
    = (RunNvidiaSmi :: report a gpus (classify a gpus)
         ++ alert_events (classify a gpus) ++ mail ++ tail)%list /\
    forallb is_mail mail = true /\
    (tail = [] \/ tail = [Sleep (interval a)]).
Proof.
  intros H1 H2. rewrite (check_cycle_parsed a env w out gpus H1 H2). cbv zeta.
  destruct (classify a gpus) as [|g idle] eqn:Hidle.
  - exists [], (fst (cycle_end a w 1)). simpl. rewrite app_nil_r.
    split; [reflexivity|]. split; [reflexivity|].
    destruct (cycle_end_cases a w 1) as [(_ & ->) | [(_ & _ & ->) | (_ & t & _ & ->)]];
      simpl; auto.
  - destruct (mail_part_cases a env w gpus (g :: idle))
      as [(mail & -> & Hm) | (e & -> & _)].
    + exists mail, (fst (cycle_end a w 0)). simpl. rewrite <- !app_assoc. simpl.
      split; [reflexivity|]. split; [assumption|].
      destruct (cycle_end_cases a w 0) as [(_ & ->) | [(_ & _ & ->) | (_ & t & _ & ->)]];
        simpl; auto.
    + exists [], []. simpl. rewrite !app_nil_r. auto.
Qed.

(** ** The alert *)

Lemma report_no_alert (a : args) (gpus idle : list gpu) :
  filter is_alert (report a gpus idle) = [] /\ filter is_bell (report a gpus idle) = [].
Proof.
  unfold report. destruct (json a); [split; reflexivity|].
  induction gpus as [|g gpus [IH1 IH2]]; [split; reflexivity|]. simpl. auto.
Qed.

Lemma mail_no_alert (evs : list event) :
  forallb is_mail evs = true ->
  filter is_alert evs = [] /\ filter is_bell evs = [].
Proof.
  induction evs as [|e evs IH]; simpl; [auto|].
  rewrite andb_true_iff. intros [He Hevs]. destruct (IH Hevs) as [IH1 IH2].
  destruct e as [|line|line| |act|secs]; try discriminate; auto.
  destruct line as [|c line]; [discriminate|].
  destruct c as [[] [] [] [] [] [] [] []]; try discriminate He. auto.
Qed.

Lemma tail_no_alert (a : args) (tail : list event) :
  tail = [] \/ tail = [Sleep (interval a)] ->
  filter is_alert tail = [] /\ filter is_bell tail = [].
Proof. intros [-> | ->]; split; reflexivity. Qed.

Lemma alert_events_filter (idle : list gpu) :
  filter is_alert (alert_events idle)
  = match idle with [] => [] | _ :: _ => [Print (alert_line idle)] end /\
  filter is_bell (alert_events idle)
  = match idle with [] => [] | _ :: _ => [Bell] end.
Proof. destruct idle; split; reflexivity. Qed.

(** C2: in every check cycle the events that are alert lines are exactly the
    one line naming the idle devices when some parsed device is idle, and none
    otherwise; the bell rings under the same condition, right after the line.
    The line lists the indices of the idle devices, which are the parsed
    devices within the thresholds in the order they were parsed. *)
Theorem C2_alert_iff_idle :
  forall (a : args) (env : environ) (w : cycle_world),
    let idle := classify a (cycle_devices w) in
    let evs := fst (check_cycle a env w) in
    filter is_alert evs
    = match idle with [] => [] | _ :: _ => [Print (alert_line idle)] end /\
    filter is_bell evs = match idle with [] => [] | _ :: _ => [Bell] end /\
    (idle <> [] ->
     exists before after, evs = (before ++ Print (alert_line idle) :: Bell :: after)%list) /\
    alert_line idle
    = "ALERT: idle GPU(s) detected -> "
        ++ PyStr.join "," (map PyStr.str (map index idle)) /\
    idle = filter (fun g => (util g <=? util_th a) && (mem_used g <=? mem_th a))
             (cycle_devices w).
Proof.
  intros a env w idle evs. subst idle evs. unfold cycle_devices.
  assert (Hline : forall idle, alert_line idle
            = "ALERT: idle GPU(s) detected -> "
                ++ PyStr.join "," (map PyStr.str (map index idle))).
  { intro idle. unfold alert_line, idle_ids. rewrite map_map. reflexivity. }
  destruct (nvidia_smi w) as [out|text] eqn:Hsmi.
  - destruct (_parse_nvidia_smi out) as [gpus|e] eqn:Hparse.
    + destruct (cycle_events_parsed a env w out gpus Hsmi Hparse)
        as (mail & tail & -> & Hmail & Htail).
      destruct (report_no_alert a gpus (classify a gpus)) as [Hr1 Hr2].
      destruct (mail_no_alert mail Hmail) as [Hm1 Hm2].
      destruct (tail_no_alert a tail Htail) as [Ht1 Ht2].
      destruct (alert_events_filter (classify a gpus)) as [Ha1 Ha2].
      simpl. rewrite !filter_app, Hr1, Hr2, Hm1, Hm2, Ht1, Ht2, Ha1, Ha2. simpl.
      rewrite !app_nil_r.
      repeat split; auto.
      intro Hne. destruct (classify a gpus) as [|g idle] eqn:Hidle; [congruence|].
      exists (RunNvidiaSmi :: report a gpus (g :: idle)), (mail ++ tail)%list.
      simpl. reflexivity.
    + rewrite (check_cycle_parse_error a env w out e Hsmi Hparse). simpl.
      repeat split; auto. congruence.
  - rewrite (check_cycle_poll_error a env w text Hsmi). simpl.
    repeat split; auto. congruence.
Qed.

(** ** Mail delivery does not steer the loop *)

Lemma mail_part_raises (a : args) (env : environ) (w : cycle_world) (gpus idle : list gpu) e :
  email a = true -> resolve_smtp a env = Raised e ->
  mail_part a env w gpus idle = ([], Raise e).
Proof.
  intros He Hr. unfold mail_part, email_block. rewrite He, Hr. reflexivity.
Qed.

Lemma filter_non_mail (evs : list event) :
  forallb is_mail evs = true -> filter non_mail evs = [].
Proof.
  induction evs as [|e evs IH]; simpl; [reflexivity|].
  rewrite andb_true_iff. intros [He Hevs]. unfold non_mail at 1. rewrite He. simpl. auto.
Qed.

(** What the mail transport answers changes neither the events outside the
    [if args.email:] block nor the way the cycle ends. *)
Lemma mail_outcome_irrelevant (a : args) (env : environ) (w w' : cycle_world) :
  nvidia_smi w' = nvidia_smi w -> sleep w' = sleep w ->
  filter non_mail (fst (check_cycle a env w')) = filter non_mail (fst (check_cycle a env w)) /\
  snd (check_cycle a env w') = snd (check_cycle a env w).
Proof.
  intros Hsmi Hsleep.
  destruct (nvidia_smi w) as [out|text] eqn:Hw.
  - destruct (_parse_nvidia_smi out) as [gpus|e] eqn:Hparse.
    + rewrite (check_cycle_parsed a env w out gpus Hw Hparse).
      rewrite (check_cycle_parsed a env w' out gpus Hsmi Hparse).
      cbv zeta.
      assert (Hend : forall code, cycle_end a w' code = cycle_end a w code).
      { intro code. unfold cycle_end, time_sleep. rewrite Hsleep. reflexivity. }
      destruct (classify a gpus) as [|g idle].
      * rewrite Hend. split; reflexivity.
      * destruct (mail_part_cases a env w gpus (g :: idle))
          as [(m & Hm & Hmail) | (e & Hm & Hemail & Hres)];
        destruct (mail_part_cases a env w' gpus (g :: idle))
          as [(m' & Hm' & Hmail') | (e' & Hm' & Hemail' & Hres')].
        -- rewrite Hm, Hm', Hend. simpl. split; [|reflexivity].
           rewrite !filter_app, (filter_non_mail m Hmail), (filter_non_mail m' Hmail').
           reflexivity.
        -- rewrite (mail_part_raises a env w gpus (g :: idle) e' Hemail' Hres') in Hm.
           discriminate.
        -- rewrite (mail_part_raises a env w' gpus (g :: idle) e Hemail Hres) in Hm'.
           discriminate.
        -- rewrite Hm, Hm'. rewrite Hres in Hres'. injection Hres' as <-.
           split; reflexivity.
    + rewrite (check_cycle_parse_error a env w out e Hw Hparse).
      rewrite (check_cycle_parse_error a env w' out e Hsmi Hparse).
      split; reflexivity.
  - rewrite (check_cycle_poll_error a env w text Hw).
    rewrite (check_cycle_poll_error a env w' text Hsmi).
    split; reflexivity.
Qed.

Lemma main_loop_next (fuel : nat) (a : args) (env : environ) (W : nat -> cycle_world)
    (n : nat) (t : list event) :
  check_cycle a env (W n) = (t, Next tt) ->
  main_loop (S fuel) a env W n
  = (t :: fst (main_loop fuel a env W (S n)), snd (main_loop fuel a env W (S n))).
Proof.
  intro H. simpl. rewrite H. destruct (main_loop fuel a env W (S n)). reflexivity.
Qed.

(** C3: in a check cycle whose call of [_send_email] raises, the exception is
    caught: the cycle prints the line that the email alert failed and ends as
    it would have ended otherwise, with [return 0] under [--once] and with the
    sleep and the next cycle in the other case.  Whatever the mail transport
    answers, the events outside the email block and the way the cycle ends are
    the same. *)
Theorem C3_mail_failure_does_not_stop_loop :
  forall (a : args) (env : environ) (w : cycle_world) out gpus c sent text,
    nvidia_smi w = inl out ->
    _parse_nvidia_smi out = Ok gpus ->
    classify a gpus <> [] ->
    email a = true ->
    resolve_smtp a env = Ok c ->
    config_complete c = true ->
    send_alert a w c gpus (classify a gpus) = (sent, Raise (Error text)) ->
    check_cycle a env w
    = ((RunNvidiaSmi :: report a gpus (classify a gpus) ++ alert_events (classify a gpus)
          ++ sent ++ [Print ("Email alert failed: " ++ text)]
          ++ fst (cycle_end a w 0))%list,
       snd (cycle_end a w 0)) /\
    (once a = true -> snd (check_cycle a env w) = Return 0) /\
    (once a = false -> sleep w = None ->
     snd (check_cycle a env w) = Next tt /\
     forall fuel W n, W n = w ->
       main_loop (S fuel) a env W n
       = (fst (check_cycle a env w) :: fst (main_loop fuel a env W (S n)),
          snd (main_loop fuel a env W (S n)))) /\
    (forall w', nvidia_smi w' = nvidia_smi w -> sleep w' = sleep w ->
       filter non_mail (fst (check_cycle a env w'))
       = filter non_mail (fst (check_cycle a env w)) /\
       snd (check_cycle a env w') = snd (check_cycle a env w)).
Proof.
  intros a env w out gpus c sent text Hsmi Hparse Hidle Hemail Hres Hc Hsend.
  assert (Hcycle : check_cycle a env w
    = ((RunNvidiaSmi :: report a gpus (classify a gpus) ++ alert_events (classify a gpus)
          ++ sent ++ [Print ("Email alert failed: " ++ text)]
          ++ fst (cycle_end a w 0))%list,
       snd (cycle_end a w 0))).
  { rewrite (check_cycle_parsed a env w out gpus Hsmi Hparse). cbv zeta.
    destruct (classify a gpus) as [|g idle] eqn:Hcl; [congruence|].
    unfold mail_part, email_block. rewrite Hemail, Hres. simpl. rewrite Hc, Hsend. simpl.
    rewrite <- !app_assoc. reflexivity. }
  split; [exact Hcycle|].
  split; [|split].
  - intro Honce. rewrite Hcycle. unfold cycle_end. rewrite Honce. reflexivity.
  - intros Honce Hsleep.
    assert (Hnext : snd (check_cycle a env w) = Next tt).
    { rewrite Hcycle. unfold cycle_end, time_sleep. rewrite Honce, Hsleep. reflexivity. }
    split; [exact Hnext|].
    intros fuel W n HW.
    apply main_loop_next. rewrite HW.
    destruct (check_cycle a env w) as [t r]. simpl in *. rewrite Hnext. reflexivity.
  - intros w' H1 H2. apply mail_outcome_irrelevant; assumption.
Qed.

(** ** Cycles are independent of each other *)

Lemma report_shown (a : args) (gpus idle : list gpu) :
  filter shown (report a gpus idle) = report a gpus idle.
Proof.
  unfold report. destruct (json a); [reflexivity|].
  induction gpus as [|g gpus IH]; [reflexivity|].
  simpl map. cbn [filter]. rewrite IH. reflexivity.
Qed.

Lemma alert_events_shown (idle : list gpu) :
  filter shown (alert_events idle) = alert_events idle.
Proof. destruct idle; reflexivity. Qed.

Lemma mail_not_shown (evs : list event) :
  forallb is_mail evs = true -> filter shown evs = [].
Proof.
  induction evs as [|e evs IH]; simpl; [reflexivity|].
  rewrite andb_true_iff. intros [He Hevs]. unfold shown at 1. rewrite He. simpl. auto.
Qed.

Lemma tail_not_shown (a : args) (tail : list event) :
  tail = [] \/ tail = [Sleep (interval a)] -> filter shown tail = [].
Proof. intros [-> | ->]; reflexivity. Qed.

(** What a cycle shows is a function of the arguments and of the answer of
    the telemetry source in that cycle. *)
Lemma cycle_shows_report (a : args) (env : environ) (w : cycle_world) :
  filter shown (fst (check_cycle a env w)) = cycle_report a (nvidia_smi w).
Proof.
  unfold cycle_report.
  destruct (nvidia_smi w) as [out|text] eqn:Hsmi.
  - destruct (_parse_nvidia_smi out) as [gpus|e] eqn:Hparse.
    + destruct (cycle_events_parsed a env w out gpus Hsmi Hparse)
        as (mail & tail & -> & Hmail & Htail).
      change (RunNvidiaSmi :: ?l)%list with ([RunNvidiaSmi] ++ l)%list.
      rewrite !filter_app, report_shown, alert_events_shown,
        (mail_not_shown mail Hmail), (tail_not_shown a tail Htail), !app_nil_r.
      reflexivity.
    + rewrite (check_cycle_parse_error a env w out e Hsmi Hparse). reflexivity.
  - rewrite (check_cycle_poll_error a env w text Hsmi). reflexivity.
Qed.

(** The alert lines of a cycle. *)
Lemma cycle_alert_lines (a : args) (env : environ) (w : cycle_world) :
  filter is_alert (fst (check_cycle a env w))
  = match classify a (cycle_devices w) with
    | [] => []
    | _ :: _ => [Print (alert_line (classify a (cycle_devices w)))]
    end.
Proof.
  unfold cycle_devices.
  destruct (nvidia_smi w) as [out|text] eqn:Hsmi.
  - destruct (_parse_nvidia_smi out) as [gpus|e] eqn:Hparse.
    + destruct (cycle_events_parsed a env w out gpus Hsmi Hparse)
        as (mail & tail & -> & Hmail & Htail).
      destruct (report_no_alert a gpus (classify a gpus)) as [Hr1 _].
      destruct (mail_no_alert mail Hmail) as [Hm1 _].
      destruct (tail_no_alert a tail Htail) as [Ht1 _].
      destruct (alert_events_filter (classify a gpus)) as [Ha1 _].
      simpl. rewrite !filter_app, Hr1, Hm1, Ht1, Ha1. simpl.
      rewrite !app_nil_r. reflexivity.
    + rewrite (check_cycle_parse_error a env w out e Hsmi Hparse). reflexivity.
  - rewrite (check_cycle_poll_error a env w text Hsmi). reflexivity.
Qed.

(** The events of cycle [k] of a run are those of the loop body on the
    answers of that cycle: nothing is carried from one cycle to the next. *)
Lemma main_loop_nth (a : args) (env : environ) (W : nat -> cycle_world) :
  forall (fuel n k : nat) (t : list event),
    nth_error (fst (main_loop fuel a env W n)) k = Some t ->
    t = fst (check_cycle a env (W (n + k)%nat)).
Proof.
  induction fuel as [|fuel IH]; intros n k t; simpl.
  - destruct k; discriminate.
  - destruct (check_cycle a env (W n)) as [t0 [[]|c|e]] eqn:Hc.
    + destruct (main_loop fuel a env W (S n)) as [ts st] eqn:Hl. simpl.
      destruct k as [|k]; simpl.
      * intros [= <-]. rewrite Nat.add_0_r, Hc. reflexivity.
      * intro Hk. rewrite <- Nat.add_succ_comm.
        apply IH. rewrite Hl. exact Hk.
    + destruct k as [|[|k]]; simpl; try discriminate.
      intros [= <-]. rewrite Nat.add_0_r, Hc. reflexivity.
    + destruct k as [|[|k]]; simpl; try discriminate.
      intros [= <-]. rewrite Nat.add_0_r, Hc. reflexivity.
Qed.

(** A run whose first [fuel] cycles all fall through performs them all. *)
Lemma main_loop_runs (a : args) (env : environ) (W : nat -> cycle_world) :
  forall (fuel n : nat),
    (forall k, (k < fuel)%nat -> snd (check_cycle a env (W (n + k)%nat)) = Next tt) ->
    main_loop fuel a env W n
    = (map (fun k => fst (check_cycle a env (W (n + k)%nat))) (seq 0 fuel), Running).
Proof.
  induction fuel as [|fuel IH]; intros n H; [reflexivity|].
  cbn [main_loop].
  pose proof (H 0%nat ltac:(lia)) as H0. rewrite Nat.add_0_r in H0.
  destruct (check_cycle a env (W n)) as [t r] eqn:Hc. simpl in H0. subst r.
  rewrite IH.
  - cbn [seq map]. rewrite Nat.add_0_r, Hc. simpl. f_equal. f_equal.
    rewrite <- seq_shift, map_map.
    apply map_ext. intro k. do 3 f_equal. lia.
  - intros k Hk. replace (S n + k)%nat with (n + S k)%nat by lia. apply H. lia.
Qed.

(** ** Every cycle goes one of the listed ways *)

Lemma mail_part_case (a : args) (env : environ) (w : cycle_world) (gpus idle : list gpu) :
  idle <> [] ->
  (exists mail, mail_part a env w gpus idle = (mail, Next tt) /\
                mail_case a env w gpus idle mail None) \/
  (exists e, mail_part a env w gpus idle = ([], Raise e) /\
             mail_case a env w gpus idle [] (Some e)).
Proof.
  intro Hidle. unfold mail_part.
  destruct (email a) eqn:Hemail.
  - destruct (email_block_cases a env w gpus idle)
      as [(e & Hr & ->) | [(c & Hr & Hc & ->) | (c & sent & Hr & Hc & Hs & Hsend)]].
    + right. exists e. split; [reflexivity|]. now apply mail_port_error.
    + left. eexists. split; [reflexivity|]. now apply (mail_skipped a env w gpus idle c).
    + left. destruct Hsend as [(Hsend & ->) | (text & Hsend & ->)];
        eexists; (split; [reflexivity|]).
      * now apply (mail_sent a env w gpus idle c).
      * now apply (mail_failed a env w gpus idle c).
  - left. exists []. split; [reflexivity|]. apply mail_off. now right.
Qed.

Lemma check_cycle_case (a : args) (env : environ) (w : cycle_world) :
  cycle_case a env w (fst (check_cycle a env w)) (snd (check_cycle a env w)).
Proof.
  destruct (nvidia_smi w) as [out|text] eqn:Hsmi.
  - destruct (_parse_nvidia_smi out) as [gpus|e] eqn:Hparse.
    + rewrite (check_cycle_parsed a env w out gpus Hsmi Hparse). cbv zeta.
      pose proof (cycle_once a env w out gpus) as Honce.
      pose proof (cycle_sleep a env w out gpus) as Hsleep.
      pose proof (cycle_mail_error a env w out gpus) as Herr.
      destruct (classify a gpus) as [|g idle] eqn:Hcl.
      * assert (Hm : mail_case a env w gpus [] [] None) by (apply mail_off; now left).
        specialize (Honce [] Hsmi Hparse Hm). specialize (Hsleep [] Hsmi Hparse Hm).
        unfold cycle_end, time_sleep.
        destruct (once a) eqn:Ho; simpl in *; rewrite ?app_nil_r in *.
        -- exact (Honce eq_refl).
        -- destruct (sleep w); simpl; exact (Hsleep eq_refl).
      * destruct (mail_part_case a env w gpus (g :: idle) ltac:(discriminate))
          as [(mail & -> & Hm) | (e & -> & Hm)].
        -- specialize (Honce mail Hsmi Hparse Hm). specialize (Hsleep mail Hsmi Hparse Hm).
           unfold cycle_end, time_sleep.
           destruct (once a) eqn:Ho; simpl in *; rewrite ?app_nil_r in *;
             rewrite <- ?app_assoc; simpl.
           ++ exact (Honce eq_refl).
           ++ destruct (sleep w); simpl; exact (Hsleep eq_refl).
        -- simpl. rewrite app_nil_r. exact (Herr e Hsmi Hparse Hm).
    + rewrite (check_cycle_parse_error a env w out e Hsmi Hparse).
      now apply (cycle_parse_error a env w out).
  - rewrite (check_cycle_poll_error a env w text Hsmi). now apply cycle_poll_error.
Qed.

(** C4: the events of cycle [k] of a run are those of the loop body applied
    to the answers of cycle [k] alone.  Hence two runs with the same arguments
    whose cycles [i] and [j] receive the same telemetry output classify the
    same devices as idle, show the same status report and raise the same
    alert, whatever the earlier cycles saw.  When the idle condition lasts,
    every cycle of the run raises its own alert. *)
Theorem C4_alerting_keeps_no_state :
  forall (a : args) (env : environ),
    (forall W1 W2 fuel1 fuel2 i j t1 t2,
        nth_error (fst (main a env W1 fuel1)) i = Some t1 ->
        nth_error (fst (main a env W2 fuel2)) j = Some t2 ->
        nvidia_smi (W1 i) = nvidia_smi (W2 j) ->
        t1 = fst (check_cycle a env (W1 i)) /\
        t2 = fst (check_cycle a env (W2 j)) /\
        classify a (cycle_devices (W1 i)) = classify a (cycle_devices (W2 j)) /\
        filter shown t1 = filter shown t2 /\
        filter shown t1 = cycle_report a (nvidia_smi (W1 i)) /\
        filter is_alert t1 = filter is_alert t2) /\
    (forall W fuel,
        (forall k, (k < fuel)%nat ->
           snd (check_cycle a env (W k)) = Next tt /\
           classify a (cycle_devices (W k)) <> []) ->
        List.length (fst (main a env W fuel)) = fuel /\
        forall k, (k < fuel)%nat ->
          exists t, nth_error (fst (main a env W fuel)) k = Some t /\
                    filter is_alert t
                    = [Print (alert_line (classify a (cycle_devices (W k))))]).
Proof.
  intros a env. split.
  - intros W1 W2 fuel1 fuel2 i j t1 t2 H1 H2 Hsmi.
    apply main_loop_nth in H1. apply main_loop_nth in H2. simpl in H1, H2.
    assert (Hdev : cycle_devices (W1 i) = cycle_devices (W2 j)).
    { unfold cycle_devices. rewrite Hsmi. reflexivity. }
    subst t1 t2.
    repeat split.
    + rewrite Hdev. reflexivity.
    + rewrite !cycle_shows_report, Hsmi. reflexivity.
    + apply cycle_shows_report.
    + rewrite !cycle_alert_lines, Hdev. reflexivity.
  - intros W fuel H. unfold main.
    rewrite (main_loop_runs a env W fuel 0).
    + simpl. rewrite length_map, length_seq. split; [reflexivity|].
      intros k Hk.
      exists (fst (check_cycle a env (W k))). split.
      * rewrite nth_error_map, nth_error_seq.
        destruct (Nat.ltb_spec k fuel); [reflexivity | lia].
      * rewrite cycle_alert_lines.
        destruct (H k Hk) as [_ Hidle].
        destruct (classify a (cycle_devices (W k))); [congruence | reflexivity].
    + intros k Hk. apply H. exact Hk.
Qed.

(** ** The sleep between polls *)

Lemma report_quiet (a : args) (gpus idle : list gpu) :
  forallb quiet (report a gpus idle) = true.
Proof.
  unfold report. destruct (json a); [reflexivity|].
  induction gpus as [|g gpus IH]; [reflexivity | exact IH].
Qed.

Lemma alert_events_quiet (idle : list gpu) : forallb quiet (alert_events idle) = true.
Proof. destruct idle; reflexivity. Qed.

Lemma smtp_quiet (evs : list event) :
  forallb is_smtp evs = true -> forallb quiet evs = true.
Proof.
  induction evs as [|e evs IH]; simpl; [reflexivity|].
  rewrite !andb_true_iff. intros [He Hevs].
  split; [destruct e; try discriminate He; reflexivity | auto].
Qed.

Lemma mail_case_quiet (a : args) (env : environ) (w : cycle_world) gpus idle mail o :
  mail_case a env w gpus idle mail o -> forallb quiet mail = true.
Proof.
  intros [ | | | c sent _ _ _ _ _ Hs | c sent text _ _ _ _ _ Hs]; try reflexivity;
    rewrite forallb_app, (smtp_quiet sent Hs); reflexivity.
Qed.


Lemma quiet_filter_sleep (evs : list event) :
  forallb quiet evs = true -> filter is_sleep evs = [].
Proof.
  induction evs as [|e evs IH]; simpl; [reflexivity|].
  rewrite andb_true_iff. intros [He Hevs].
  destruct e; simpl in *; try discriminate; auto.
Qed.


(** In a run, a cycle that is followed by another one, or after which the
    loop is still going, fell through the loop body. *)
Lemma main_loop_flow (a : args) (env : environ) (W : nat -> cycle_world) :
  forall (fuel n k : nat) (t : list event),
    nth_error (fst (main_loop fuel a env W n)) k = Some t ->
    (S k < List.length (fst (main_loop fuel a env W n)))%nat \/
    snd (main_loop fuel a env W n) = Running ->
    snd (check_cycle a env (W (n + k)%nat)) = Next tt.
Proof.
  induction fuel as [|fuel IH]; intros n k t; simpl.
  - destruct k; discriminate.
  - destruct (check_cycle a env (W n)) as [t0 [[]|c|e]] eqn:Hc.
    + destruct (main_loop fuel a env W (S n)) as [ts st] eqn:Hl. simpl.
      destruct k as [|k]; simpl.
      * intros _ _. rewrite Nat.add_0_r, Hc. reflexivity.
      * intros Hk Hlen. replace (n + S k)%nat with (S n + k)%nat by lia.
        apply (IH (S n) k t); rewrite Hl; simpl; [exact Hk|].
        destruct Hlen as [Hlen | Hst]; [left; lia | right; exact Hst].
    + simpl. intros _ [Hlen | Hst]; [lia | discriminate].
    + simpl. intros _ [Hlen | Hst]; [lia | discriminate].
Qed.


(** ** The email guard *)

Lemma truthy_true (s : string) : truthy s = true <-> s <> "".
Proof. unfold truthy. destruct s; simpl; split; easy. Qed.







Lemma cycle_devices_idle (a : args) (w : cycle_world) :
  classify a (cycle_devices w) <> [] ->
  exists out gpus, nvidia_smi w = inl out /\ _parse_nvidia_smi out = Ok gpus /\
                   cycle_devices w = gpus.
Proof.
  unfold cycle_devices.
  destruct (nvidia_smi w) as [out|text] eqn:Hsmi;
    [|intro H; exfalso; apply H; reflexivity].
  destruct (_parse_nvidia_smi out) as [gpus|e] eqn:Hparse;
    [|intro H; exfalso; apply H; reflexivity].
  intros _. exists out, gpus. rewrite Hparse. repeat split.
Qed.





(** ** How a cycle and a run end *)

Lemma mail_case_none (a : args) (env : environ) (w : cycle_world) gpus idle mail :
  mail_case a env w gpus idle mail None ->
  idle = [] \/ email a = false \/ exists c, resolve_smtp a env = Ok c.
Proof.
  intro H. inversion H; subst; try tauto; eauto.
Qed.

(** A cycle falls through to the next one exactly when the loop is not
    [--once], the telemetry is read and parsed, the SMTP settings resolve if
    they are needed, and the sleep returns. *)
Lemma cycle_falls_through (a : args) (env : environ) (w : cycle_world) :
  snd (check_cycle a env w) = Next tt <->
  once a = false /\ sleep w = None /\
  exists out gpus, nvidia_smi w = inl out /\ _parse_nvidia_smi out = Ok gpus /\
    (classify a gpus = [] \/ email a = false \/ exists c, resolve_smtp a env = Ok c).
Proof.
  split.
  - intro Hnext.
    pose proof (check_cycle_case a env w) as Hcase. rewrite Hnext in Hcase.
    inversion Hcase as [ | | | | out gpus mail Hsmi Hparse Hm Ho Ht Hr]; subst.
    split; [exact Ho|].
    destruct (sleep w); [discriminate|]. split; [reflexivity|].
    exists out, gpus. split; [exact Hsmi|]. split; [exact Hparse|].
    exact (mail_case_none _ _ _ _ _ _ Hm).
  - intros (Ho & Hs & out & gpus & Hsmi & Hparse & Hmail).
    rewrite (check_cycle_parsed a env w out gpus Hsmi Hparse). cbv zeta.
    assert (Hend : forall code, snd (cycle_end a w code) = Next tt).
    { intro code. unfold cycle_end, time_sleep. rewrite Ho, Hs. reflexivity. }
    destruct (classify a gpus) as [|g idle] eqn:Hcl; [apply Hend|].
    destruct (mail_part_cases a env w gpus (g :: idle))
      as [(mail & -> & _) | (e & -> & He & Hr)]; [apply Hend|].
    destruct Hmail as [H | [H | (c & H)]]; congruence.
Qed.

(** A cycle returns from [main] with 2 when the telemetry source raised, and
    otherwise only under [--once], with the code of the classification. *)
Lemma cycle_returns (a : args) (env : environ) (w : cycle_world) (code : Z) :
  snd (check_cycle a env w) = Return code ->
  (code = 2 /\ exists text, nvidia_smi w = inr text) \/
  (once a = true /\ code = once_code (classify a (cycle_devices w)) /\
   exists out gpus, nvidia_smi w = inl out /\ _parse_nvidia_smi out = Ok gpus).
Proof.
  intro Hret.
  pose proof (check_cycle_case a env w) as Hcase. rewrite Hret in Hcase.
  inversion Hcase as [text Hsmi | | | out gpus mail Hsmi Hparse Hm Ho
                     | out gpus mail Hsmi Hparse Hm Ho Ht Hr]; subst.
  - left. eauto.
  - right. unfold cycle_devices. rewrite Hsmi, Hparse.
    split; [assumption|]. split; [reflexivity|]. exists out, gpus. auto.
  - destruct (sleep w); discriminate.
Qed.

Lemma main_loop_stops (a : args) (env : environ) (W : nat -> cycle_world) (n fuel : nat) :
  snd (check_cycle a env (W n)) <> Next tt ->
  main_loop (S fuel) a env W n = main_loop 1 a env W n /\
  List.length (fst (main_loop 1 a env W n)) = 1%nat /\
  snd (main_loop 1 a env W n) <> Running.
Proof.
  intro H. simpl.
  destruct (check_cycle a env (W n)) as [t [[]|c|e]]; simpl in *;
    [congruence | |]; repeat split; discriminate.
Qed.

Lemma main_loop_exit (a : args) (env : environ) (W : nat -> cycle_world) :
  forall (fuel n : nat) (code : Z),
    snd (main_loop fuel a env W n) = Exited code ->
    exists k, List.length (fst (main_loop fuel a env W n)) = S k /\
              snd (check_cycle a env (W (n + k)%nat)) = Return code.
Proof.
  induction fuel as [|fuel IH]; intros n code; simpl; [discriminate|].
  destruct (check_cycle a env (W n)) as [t [[]|c|e]] eqn:Hc.
  - destruct (main_loop fuel a env W (S n)) as [ts st] eqn:Hl. simpl.
    intro Hst. destruct (IH (S n) code) as (k & Hlen & Hret).
    { rewrite Hl. exact Hst. }
    exists (S k). rewrite Hl in Hlen. simpl in Hlen. split; [simpl; lia|].
    replace (n + S k)%nat with (S n + k)%nat by lia. exact Hret.
  - simpl. intros [= <-]. exists 0%nat. rewrite Nat.add_0_r, Hc. auto.
  - simpl. discriminate.
Qed.

(** C7 (amended): under [--once] a run performs exactly one check cycle and
    then stops, whatever the fuel.  Without [--once] the number of cycles has
    no bound: as long as each cycle reads and parses the telemetry, resolves
    the SMTP settings if it needs them and returns from the sleep, the loop is
    still going after any number of cycles; and [main] returns only in a
    cycle in which invoking the telemetry source raises, with code 2. *)
Theorem C7_bounded_only_under_once :
  forall (a : args) (env : environ) (W : nat -> cycle_world),
    (once a = true -> forall fuel,
        main a env W (S fuel) = main a env W 1 /\
        List.length (fst (main a env W 1)) = 1%nat /\
        snd (main a env W 1) <> Running) /\
    (once a = false -> forall fuel,
        (forall k, (k < fuel)%nat ->
           sleep (W k) = None /\
           exists out gpus, nvidia_smi (W k) = inl out /\
             _parse_nvidia_smi out = Ok gpus /\
             (classify a gpus = [] \/ email a = false \/
              exists c, resolve_smtp a env = Ok c)) ->
        List.length (fst (main a env W fuel)) = fuel /\
        snd (main a env W fuel) = Running) /\
    (once a = false -> forall fuel code,
        snd (main a env W fuel) = Exited code ->
        code = 2 /\
        exists k text, List.length (fst (main a env W fuel)) = S k /\
                       nvidia_smi (W k) = inr text).
Proof.
  intros a env W. unfold main. split; [|split].
  - intros Ho fuel. apply main_loop_stops.
    intro Hnext. apply cycle_falls_through in Hnext. destruct Hnext as [Hf _]. congruence.
  - intros Ho fuel H.
    rewrite (main_loop_runs a env W fuel 0).
    + simpl. rewrite length_map, length_seq. auto.
    + intros k Hk. simpl. apply cycle_falls_through.
      destruct (H k Hk) as (Hs & Hrest). auto.
  - intros Ho fuel code Hexit.
    destruct (main_loop_exit a env W fuel 0 code Hexit) as (k & Hlen & Hret).
    simpl in Hret.
    destruct (cycle_returns a env (W k) code Hret)
      as [(-> & text & Hsmi) | (Ho' & _)]; [|congruence].
    split; [reflexivity|]. exists k, text. auto.
Qed.

(** C7, as stated, fails: with the default arguments and a telemetry source
    that keeps answering, no amount of fuel brings the run to an end. *)
Lemma C7_default_run_never_ends :
  ~ (exists fuel, snd (main default_args no_env steady_world fuel) <> Running).
Proof.
  intros (fuel & H). apply H. unfold main.
  rewrite (main_loop_runs default_args no_env steady_world fuel 0); [reflexivity|].
  intros k _. reflexivity.
Qed.

(** ** Exit codes *)

(** Under [--once], the code is 0 exactly when a device is idle and the cycle
    gets past the email block, and 1 exactly when the telemetry was parsed and
    no device is idle. *)
Lemma once_exit_codes (a : args) (env : environ) (w : cycle_world) :
  once a = true ->
  (snd (check_cycle a env w) = Return 0 <->
   classify a (cycle_devices w) <> [] /\
   (email a = false \/ exists c, resolve_smtp a env = Ok c)) /\
  (snd (check_cycle a env w) = Return 1 <->
   classify a (cycle_devices w) = [] /\
   exists out gpus, nvidia_smi w = inl out /\ _parse_nvidia_smi out = Ok gpus).
Proof.
  intro Ho. split; split.
  - intro Hret.
    pose proof (check_cycle_case a env w) as Hcase. rewrite Hret in Hcase.
    inversion Hcase as [ | | | out gpus mail Hsmi Hparse Hm _ Ht Hcode
                       | out gpus mail Hsmi Hparse Hm Ho' Ht Hr]; subst.
    + unfold cycle_devices. rewrite Hsmi, Hparse.
      destruct (classify a gpus) as [|g idle] eqn:Hcl; [discriminate|].
      split; [discriminate|].
      destruct (mail_case_none _ _ _ _ _ _ Hm) as [H | H]; [discriminate | exact H].
    + congruence.
  - intros (Hidle & Hmail).
    destruct (cycle_devices_idle a w Hidle) as (out & gpus & Hsmi & Hparse & Hdev).
    rewrite Hdev in Hidle.
    rewrite (check_cycle_parsed a env w out gpus Hsmi Hparse). cbv zeta.
    destruct (classify a gpus) as [|g idle] eqn:Hcl; [congruence|].
    destruct (mail_part_cases a env w gpus (g :: idle))
      as [(mail & -> & _) | (e & -> & He & Hr)].
    + unfold cycle_end. rewrite Ho. reflexivity.
    + destruct Hmail as [H | (c & H)]; congruence.
  - intro Hret.
    pose proof (check_cycle_case a env w) as Hcase. rewrite Hret in Hcase.
    inversion Hcase as [ | | | out gpus mail Hsmi Hparse Hm _ Ht Hcode
                       | out gpus mail Hsmi Hparse Hm Ho' Ht Hr]; subst.
    + unfold cycle_devices. rewrite Hsmi, Hparse.
      destruct (classify a gpus) as [|g idle] eqn:Hcl; [|discriminate].
      split; [reflexivity|]. eauto.
    + congruence.
  - intros (Hidle & out & gpus & Hsmi & Hparse).
    unfold cycle_devices in Hidle. rewrite Hsmi, Hparse in Hidle.
    rewrite (check_cycle_parsed a env w out gpus Hsmi Hparse). cbv zeta.
    rewrite Hidle. unfold cycle_end. rewrite Ho. reflexivity.
Qed.

(** C8, at the failing input: under [--once --email] without [--smtp_port]
    and with [SMTP_PORT=abc], the single check finds device 0 idle, prints the
    status and the alert, and then the [ValueError] of [int("abc")] leaves
    [main]: it does not return 0. *)
Theorem C8_malformed_smtp_port_escapes_main :
  once once_email_args = true /\
  map index (classify once_email_args (cycle_devices idle_answer)) = [0] /\
  main once_email_args malformed_port_env (fun _ => idle_answer) 1
  = ([[RunNvidiaSmi;
       Print "GPU 0: util=3% mem=120/8000 MB";
       Print "GPU 1: util=97% mem=7000/8000 MB";
       Print "ALERT: idle GPU(s) detected -> 0";
       Bell]],
     Crashed (InvalidLiteral "abc")).
Proof. repeat split. Qed.

(** ** Resolution of the SMTP settings *)

Lemma str_or_left (cli fallback : string) : cli <> "" -> str_or cli fallback = cli.
Proof. intro H. unfold str_or. apply truthy_true in H. rewrite H. reflexivity. Qed.

Lemma str_or_right (fallback : string) : str_or "" fallback = fallback.
Proof. reflexivity. Qed.

Lemma resolve_port_cli (a : args) (env : environ) :
  smtp_port a <> 0 -> resolve_port a env = Ok (smtp_port a).
Proof.
  intro H. unfold resolve_port. apply Z.eqb_neq in H. rewrite H. reflexivity.
Qed.

Lemma resolve_port_env (a : args) (env : environ) (v : string) :
  smtp_port a = 0 -> env "SMTP_PORT" = Some v -> v <> "" ->
  resolve_port a env = py_int v.
Proof.
  intros H Hv Hne. unfold resolve_port, getenv. rewrite H, Hv. simpl.
  apply truthy_true in Hne. rewrite Hne. reflexivity.
Qed.

Lemma resolve_port_unset (a : args) (env : environ) :
  smtp_port a = 0 -> env "SMTP_PORT" = None \/ env "SMTP_PORT" = Some "" ->
  resolve_port a env = Ok 0.
Proof.
  intros H [Hv | Hv]; unfold resolve_port, getenv; rewrite H, Hv; reflexivity.
Qed.

Lemma resolve_smtp_ok (a : args) (env : environ) (c : smtp_config) :
  resolve_smtp a env = Ok c ->
  resolve_port a env = Ok (cfg_port c) /\
  cfg_host c = str_or (smtp_host a) (getenv env "SMTP_HOST" "") /\
  cfg_user c = str_or (smtp_user a) (getenv env "SMTP_USER" "") /\
  cfg_pass c = str_or (smtp_pass a) (getenv env "SMTP_PASS" "") /\
  cfg_sender c = str_or (smtp_sender a) (getenv env "SMTP_SENDER" (cfg_user c)) /\
  cfg_recipients c = resolve_recipients a env.
Proof.
  unfold resolve_smtp.
  destruct (resolve_port a env) as [port|e]; simpl; [|discriminate].
  intros [= <-]. simpl. repeat split.
Qed.

(** C10: each SMTP setting is the command-line value when that value is not
    empty (not zero for the port), and otherwise comes from its environment
    variable: the variable's value for host, user, password and recipients
    (empty when the variable is unset), the integer it denotes for the port
    (0 when it is unset or empty, a [ValueError] when it is not an integer
    literal), and for the sender the value of [SMTP_SENDER] when it is set and
    the resolved user when it is not.  Resolution fails in no other case. *)
Theorem C10_command_line_before_environment :
  forall (a : args) (env : environ),
    (forall c, resolve_smtp a env = Ok c ->
       (smtp_host a <> "" -> cfg_host c = smtp_host a) /\
       (smtp_host a = "" -> cfg_host c = getenv env "SMTP_HOST" "") /\
       (smtp_port a <> 0 -> cfg_port c = smtp_port a) /\
       (smtp_port a = 0 -> forall v, env "SMTP_PORT" = Some v -> v <> "" ->
          PyStr.int v = Some (cfg_port c)) /\
       (smtp_port a = 0 -> env "SMTP_PORT" = None \/ env "SMTP_PORT" = Some "" ->
          cfg_port c = 0) /\
       (smtp_user a <> "" -> cfg_user c = smtp_user a) /\
       (smtp_user a = "" -> cfg_user c = getenv env "SMTP_USER" "") /\
       (smtp_pass a <> "" -> cfg_pass c = smtp_pass a) /\
       (smtp_pass a = "" -> cfg_pass c = getenv env "SMTP_PASS" "") /\
       (smtp_sender a <> "" -> cfg_sender c = smtp_sender a) /\
       (smtp_sender a = "" -> forall v, env "SMTP_SENDER" = Some v -> cfg_sender c = v) /\
       (smtp_sender a = "" -> env "SMTP_SENDER" = None -> cfg_sender c = cfg_user c) /\
       (email_to a <> "" ->
          cfg_recipients c
          = filter truthy (map PyStr.strip (PyStr.split "," (email_to a)))) /\
       (email_to a = "" ->
          cfg_recipients c
          = filter truthy (map PyStr.strip (PyStr.split "," (getenv env "SMTP_TO" ""))))) /\
    (forall e, resolve_smtp a env = Raised e <->
       smtp_port a = 0 /\
       exists v, env "SMTP_PORT" = Some v /\ v <> "" /\ PyStr.int v = None /\
                 e = InvalidLiteral v).
Proof.
  intros a env. split.
  - intros c Hc.
    destruct (resolve_smtp_ok a env c Hc) as (Hport & Hhost & Huser & Hpass & Hsender & Hrcpt).
    unfold resolve_recipients in Hrcpt.
    repeat split.
    + intro H. rewrite Hhost. apply str_or_left. exact H.
    + intro H. rewrite Hhost, H. reflexivity.
    + intro H. rewrite (resolve_port_cli a env H) in Hport.
      injection Hport as <-. reflexivity.
    + intros H v Hv Hne. rewrite (resolve_port_env a env v H Hv Hne) in Hport.
      unfold py_int in Hport.
      destruct (PyStr.int v); [injection Hport as <-; reflexivity | discriminate].
    + intros H Hv. rewrite (resolve_port_unset a env H Hv) in Hport.
      injection Hport as <-. reflexivity.
    + intro H. rewrite Huser. apply str_or_left. exact H.
    + intro H. rewrite Huser, H. reflexivity.
    + intro H. rewrite Hpass. apply str_or_left. exact H.
    + intro H. rewrite Hpass, H. reflexivity.
    + intro H. rewrite Hsender. apply str_or_left. exact H.
    + intros H v Hv. rewrite Hsender, H. unfold getenv. rewrite Hv. reflexivity.
    + intros H Hv. rewrite Hsender, H. unfold getenv. rewrite Hv. reflexivity.
    + intro H. rewrite Hrcpt, (str_or_left _ _ H). reflexivity.
    + intro H. rewrite Hrcpt, H. reflexivity.
  - intro e. unfold resolve_smtp, resolve_port, py_int, getenv. split.
    + destruct (smtp_port a =? 0) eqn:Hp; simpl; [|discriminate].
      apply Z.eqb_eq in Hp.
      destruct (env "SMTP_PORT") as [v|] eqn:Hv.
      * destruct (truthy v) eqn:Ht; simpl; [|discriminate].
        destruct (PyStr.int v) eqn:Hi; simpl; [discriminate|].
        intros [= <-]. split; [exact Hp|]. exists v.
        apply truthy_true in Ht. auto.
      * cbv. discriminate.
    + intros (Hp & v & Hv & Hne & Hi & ->).
      rewrite Hp, Hv. simpl. apply truthy_true in Hne. rewrite Hne, Hi. reflexivity.
Qed.

(** ** Strings: stripping, splitting and joining *)

Section StripLemmas.
Variable sp : ascii -> bool.

Lemma lstrip_app (s x : string) :
  PyStr.lstrip_with sp (s ++ x)
  = if PyStr.is_empty (PyStr.lstrip_with sp s) then PyStr.lstrip_with sp x
    else PyStr.lstrip_with sp s ++ x.
Proof.
  induction s as [|c s IH]; simpl; [reflexivity|].
  destruct (sp c); [exact IH | reflexivity].
Qed.

Lemma rstrip_app (x s : string) :
  PyStr.rstrip_with sp (x ++ s)
  = if PyStr.is_empty (PyStr.rstrip_with sp s) then PyStr.rstrip_with sp x
    else x ++ PyStr.rstrip_with sp s.
Proof.
  induction x as [|c x IH]; simpl.
  - destruct (PyStr.rstrip_with sp s); reflexivity.
  - rewrite IH.
    destruct (PyStr.rstrip_with sp s) as [|d r]; simpl; [reflexivity|].
    destruct (x ++ String d r) eqn:Hx; [|reflexivity].
    destruct x; discriminate.
Qed.

Lemma lstrip_spaces (s : string) :
  PyStr.all_chars sp s = true -> PyStr.lstrip_with sp s = "".
Proof.
  induction s as [|c s IH]; simpl; [reflexivity|].
  rewrite andb_true_iff. intros [Hc Hs]. rewrite Hc. auto.
Qed.

Lemma rstrip_spaces (s : string) :
  PyStr.all_chars sp s = true -> PyStr.rstrip_with sp s = "".
Proof.
  induction s as [|c s IH]; simpl; [reflexivity|].
  rewrite andb_true_iff. intros [Hc Hs]. rewrite (IH Hs), Hc. reflexivity.
Qed.

Lemma lstrip_solid (s : string) :
  PyStr.all_chars (fun c => negb (sp c)) s = true -> PyStr.lstrip_with sp s = s.
Proof.
  destruct s as [|c s]; simpl; [reflexivity|].
  rewrite andb_true_iff, negb_true_iff. intros [-> _]. reflexivity.
Qed.

Lemma rstrip_solid (s : string) :
  PyStr.all_chars (fun c => negb (sp c)) s = true -> PyStr.rstrip_with sp s = s.
Proof.
  induction s as [|c s IH]; simpl; [reflexivity|].
  rewrite andb_true_iff, negb_true_iff. intros [Hc Hs].
  rewrite (IH Hs), Hc, andb_false_r. reflexivity.
Qed.

Lemma strip_solid (s : string) :
  PyStr.all_chars (fun c => negb (sp c)) s = true -> PyStr.strip_with sp s = s.
Proof.
  intro H. unfold PyStr.strip_with. rewrite (lstrip_solid s H). apply rstrip_solid, H.
Qed.

(** Blanks around a text without white space are what [strip] removes. *)
Lemma strip_padded (l m t : string) :
  PyStr.all_chars sp l = true -> PyStr.all_chars sp t = true ->
  PyStr.all_chars (fun c => negb (sp c)) m = true ->
  PyStr.strip_with sp (l ++ m ++ t) = m.
Proof.
  intros Hl Ht Hm. unfold PyStr.strip_with.
  rewrite lstrip_app, (lstrip_spaces l Hl). cbn [PyStr.is_empty].
  rewrite lstrip_app, (lstrip_solid m Hm).
  destruct m as [|c m]; cbn [PyStr.is_empty].
  - rewrite (lstrip_spaces t Ht). reflexivity.
  - rewrite rstrip_app, (rstrip_spaces t Ht). cbn [PyStr.is_empty].
    apply rstrip_solid, Hm.
Qed.

Lemma lstrip_idem (s : string) :
  PyStr.lstrip_with sp (PyStr.lstrip_with sp s) = PyStr.lstrip_with sp s.
Proof.
  induction s as [|c s IH]; simpl; [reflexivity|].
  destruct (sp c) eqn:Hc; [exact IH|]. simpl. rewrite Hc. reflexivity.
Qed.

Lemma rstrip_idem (s : string) :
  PyStr.rstrip_with sp (PyStr.rstrip_with sp s) = PyStr.rstrip_with sp s.
Proof.
  induction s as [|c s IH]; simpl; [reflexivity|].
  destruct (PyStr.rstrip_with sp s) as [|d r] eqn:Hr; simpl.
  - destruct (sp c) eqn:Hc; simpl; [reflexivity|]. rewrite Hc. reflexivity.
  - simpl in IH. rewrite IH. reflexivity.
Qed.

Lemma lstrip_rstrip (s : string) :
  PyStr.lstrip_with sp (PyStr.rstrip_with sp s)
  = PyStr.rstrip_with sp (PyStr.lstrip_with sp s).
Proof.
  induction s as [|c s IH]; simpl; [reflexivity|].
  destruct (sp c) eqn:Hc.
  - rewrite andb_true_r, <- IH.
    destruct (PyStr.rstrip_with sp s) as [|d r]; simpl; [reflexivity|].
    rewrite Hc. reflexivity.
  - rewrite andb_false_r. simpl. rewrite Hc, andb_false_r. reflexivity.
Qed.

Lemma strip_lstrip (s : string) :
  PyStr.strip_with sp (PyStr.lstrip_with sp s) = PyStr.strip_with sp s.
Proof. unfold PyStr.strip_with. rewrite lstrip_idem. reflexivity. Qed.

Lemma strip_rstrip (s : string) :
  PyStr.strip_with sp (PyStr.rstrip_with sp s) = PyStr.strip_with sp s.
Proof. unfold PyStr.strip_with. rewrite lstrip_rstrip, rstrip_idem. reflexivity. Qed.

Lemma lstrip_keeps (p : ascii -> bool) (s : string) :
  PyStr.all_chars p s = true -> PyStr.all_chars p (PyStr.lstrip_with sp s) = true.
Proof.
  induction s as [|c s IH]; simpl; [reflexivity|].
  rewrite andb_true_iff. intros [Hc Hs].
  destruct (sp c); [auto|]. simpl. rewrite Hc, Hs. reflexivity.
Qed.

Lemma rstrip_keeps (p : ascii -> bool) (s : string) :
  PyStr.all_chars p s = true -> PyStr.all_chars p (PyStr.rstrip_with sp s) = true.
Proof.
  induction s as [|c s IH]; simpl; [reflexivity|].
  rewrite andb_true_iff. intros [Hc Hs].
  destruct (PyStr.is_empty (PyStr.rstrip_with sp s) && sp c); [reflexivity|].
  simpl. rewrite Hc, (IH Hs). reflexivity.
Qed.
End StripLemmas.

Lemma all_chars_app (p : ascii -> bool) (s t : string) :
  PyStr.all_chars p (s ++ t) = PyStr.all_chars p s && PyStr.all_chars p t.
Proof.
  induction s as [|c s IH]; simpl; [reflexivity|].
  rewrite IH, andb_assoc. reflexivity.
Qed.

Lemma all_chars_impl (p q : ascii -> bool) (s : string) :
  (forall c, p c = true -> q c = true) ->
  PyStr.all_chars p s = true -> PyStr.all_chars q s = true.
Proof.
  intro Hpq. induction s as [|c s IH]; simpl; [reflexivity|].
  rewrite !andb_true_iff. intros [Hc Hs]. auto.
Qed.

Section SplitLemmas.
Variable sep : ascii.

Lemma split_nonempty (s : string) : PyStr.split sep s <> [].
Proof.
  destruct s as [|c s]; simpl; [discriminate|].
  destruct (Ascii.eqb c sep); [discriminate|].
  destruct (PyStr.split sep s); discriminate.
Qed.

Lemma split_solid (s : string) :
  PyStr.all_chars (not_sep sep) s = true -> PyStr.split sep s = [s].
Proof.
  induction s as [|c s IH]; simpl; [reflexivity|].
  unfold not_sep at 1. rewrite andb_true_iff, negb_true_iff. intros [-> Hs].
  rewrite (IH Hs). reflexivity.
Qed.

Lemma split_app_sep (f r : string) :
  PyStr.all_chars (not_sep sep) f = true ->
  PyStr.split sep (f ++ String sep r) = f :: PyStr.split sep r.
Proof.
  induction f as [|c f IH]; simpl.
  - intros _. rewrite Ascii.eqb_refl. reflexivity.
  - unfold not_sep at 1. rewrite andb_true_iff, negb_true_iff. intros [-> Hf].
    rewrite (IH Hf). reflexivity.
Qed.

Lemma split_single (s f : string) : PyStr.split sep s = [f] -> f = s.
Proof.
  revert f. induction s as [|c s IH]; simpl; intro f.
  - intros [= <-]. reflexivity.
  - destruct (Ascii.eqb c sep).
    + intros [= _ H]. exfalso. exact (split_nonempty s H).
    + destruct (PyStr.split sep s) as [|f0 fs] eqn:Hs; [intros [= <-]|].
      * exfalso. exact (split_nonempty s Hs).
      * intros [= <- ->]. rewrite (IH f0 eq_refl). reflexivity.
Qed.

Variable sp : ascii -> bool.
Hypothesis sep_not_space : sp sep = false.

Lemma space_not_sep (c : ascii) : sp c = true -> Ascii.eqb c sep = false.
Proof.
  intro Hc. destruct (Ascii.eqb_spec c sep) as [->|]; [congruence | reflexivity].
Qed.

Lemma split_lstrip (s : string) :
  PyStr.split sep (PyStr.lstrip_with sp s)
  = map_first (PyStr.lstrip_with sp) (PyStr.split sep s).
Proof.
  induction s as [|c s IH]; [reflexivity|].
  cbn [PyStr.lstrip_with].
  destruct (sp c) eqn:Hc.
  - rewrite IH. cbn [PyStr.split]. rewrite (space_not_sep c Hc).
    destruct (PyStr.split sep s) as [|f fs] eqn:Hs.
    + exfalso. exact (split_nonempty s Hs).
    + simpl. rewrite Hc. reflexivity.
  - cbn [PyStr.split].
    destruct (Ascii.eqb c sep); [reflexivity|].
    destruct (PyStr.split sep s) as [|f fs]; simpl; rewrite Hc; reflexivity.
Qed.

Lemma split_rstrip (s : string) :
  PyStr.split sep (PyStr.rstrip_with sp s)
  = map_last (PyStr.rstrip_with sp) (PyStr.split sep s).
Proof.
  induction s as [|c s IH]; [reflexivity|].
  cbn [PyStr.rstrip_with PyStr.split].
  destruct (Ascii.eqb_spec c sep) as [->|Hne].
  - rewrite sep_not_space, andb_false_r.
    cbn [PyStr.split]. rewrite Ascii.eqb_refl, IH.
    destruct (PyStr.split sep s) as [|f fs] eqn:Hs; [|reflexivity].
    exfalso. exact (split_nonempty s Hs).
  - assert (Hc : Ascii.eqb c sep = false) by (apply Ascii.eqb_neq; exact Hne).
    destruct (PyStr.split sep s) as [|f fs] eqn:Hs.
    { exfalso. exact (split_nonempty s Hs). }
    destruct (PyStr.is_empty (PyStr.rstrip_with sp s) && sp c) eqn:Hdrop.
    + apply andb_true_iff in Hdrop. destruct Hdrop as [Hempty Hspace].
      destruct (PyStr.rstrip_with sp s) eqn:Hr; [|discriminate].
      destruct fs as [|f2 fs].
      * simpl in IH. injection IH as IH. simpl. rewrite <- IH, Hspace. reflexivity.
      * simpl in IH. destruct fs; discriminate.
    + cbn [PyStr.split]. rewrite Hc, IH.
      destruct fs as [|f2 fs]; [|reflexivity].
      simpl. rewrite (split_single s f Hs), Hdrop. reflexivity.
Qed.
End SplitLemmas.

(** ** The loop body of the parser does not see the white space at the ends
       of a line *)

Lemma map_strip_first (l : list string) :
  map PyStr.strip (map_first (PyStr.lstrip_with PyStr.isspace) l) = map PyStr.strip l.
Proof.
  destruct l as [|x xs]; [reflexivity|]. simpl.
  unfold PyStr.strip. rewrite strip_lstrip. reflexivity.
Qed.

Lemma map_strip_last (l : list string) :
  map PyStr.strip (map_last (PyStr.rstrip_with PyStr.isspace) l) = map PyStr.strip l.
Proof.
  induction l as [|x xs IH]; [reflexivity|].
  destruct xs as [|y ys].
  - simpl. unfold PyStr.strip. rewrite strip_rstrip. reflexivity.
  - change (map_last (PyStr.rstrip_with PyStr.isspace) (x :: y :: ys))
      with (x :: map_last (PyStr.rstrip_with PyStr.isspace) (y :: ys)).
    cbn [map]. cbn [map] in IH. rewrite IH. reflexivity.
Qed.

Lemma parse_line_lstrip (line : string) :
  parse_line (PyStr.lstrip_with PyStr.isspace line) = parse_line line.
Proof.
  unfold parse_line.
  rewrite (split_lstrip "," PyStr.isspace eq_refl), map_strip_first. reflexivity.
Qed.

Lemma parse_line_rstrip (line : string) :
  parse_line (PyStr.rstrip_with PyStr.isspace line) = parse_line line.
Proof.
  unfold parse_line.
  rewrite (split_rstrip "," PyStr.isspace eq_refl), map_strip_last. reflexivity.
Qed.

Lemma parse_line_blank (line : string) :
  PyStr.lstrip_with PyStr.isspace line = "" -> parse_line line = Ok None.
Proof.
  intro H. rewrite <- parse_line_lstrip, H. reflexivity.
Qed.

Lemma parse_line_blank_r (line : string) :
  PyStr.rstrip_with PyStr.isspace line = "" -> parse_line line = Ok None.
Proof.
  intro H. rewrite <- parse_line_rstrip, H. reflexivity.
Qed.

(** ** Lines joined by line feeds, stripped and split again *)

Lemma join_cons (sep t : string) (ts : list string) :
  ts <> [] -> PyStr.join sep (t :: ts) = t ++ sep ++ PyStr.join sep ts.
Proof. destruct ts; [congruence | reflexivity]. Qed.

Lemma same_parse_refl (L : list string) : same_parse L L.
Proof. intro acc. reflexivity. Qed.

Lemma same_parse_trans (L1 L2 L3 : list string) :
  same_parse L1 L2 -> same_parse L2 L3 -> same_parse L1 L3.
Proof. intros H1 H2 acc. rewrite H1. apply H2. Qed.

Lemma same_parse_cons (t t' : string) (ts ts' : list string) :
  parse_line t = parse_line t' -> same_parse ts ts' -> same_parse (t :: ts) (t' :: ts').
Proof.
  intros Ht Hts acc. simpl. rewrite Ht.
  destruct (parse_line t') as [[g|]|e]; simpl; auto.
Qed.

Lemma same_parse_skip (t : string) (ts ts' : list string) :
  parse_line t = Ok None -> same_parse ts ts' -> same_parse (t :: ts) ts'.
Proof. intros Ht Hts acc. simpl. rewrite Ht. simpl. apply Hts. Qed.

Lemma is_empty_true (s : string) : PyStr.is_empty s = true -> s = "".
Proof. destruct s; [reflexivity | discriminate]. Qed.

Lemma lstrip_join (texts : list string) :
  lines_ok texts = true ->
  exists L, PyStr.lstrip_with PyStr.isspace (PyStr.join nl texts) = PyStr.join nl L /\
            same_parse texts L /\ lines_ok L = true.
Proof.
  induction texts as [|t ts IH]; intro Hok.
  - exists []. split; [reflexivity|]. split; [apply same_parse_refl | reflexivity].
  - simpl in Hok. apply andb_true_iff in Hok. destruct Hok as [Ht Hts].
    destruct (IH Hts) as (L & HL & Hsame & HLok).
    destruct (PyStr.is_empty (PyStr.lstrip_with PyStr.isspace t)) eqn:Hblank.
    + exists L. split; [|split; [|exact HLok]].
      * destruct ts as [|t2 ts].
        -- simpl in *. rewrite (is_empty_true _ Hblank). exact HL.
        -- rewrite join_cons by discriminate.
           rewrite lstrip_app, Hblank. exact HL.
      * apply same_parse_skip; [|exact Hsame].
        apply parse_line_blank, is_empty_true, Hblank.
    + exists (PyStr.lstrip_with PyStr.isspace t :: ts). split; [|split].
      * destruct ts as [|t2 ts].
        -- reflexivity.
        -- rewrite !join_cons by discriminate.
           rewrite lstrip_app, Hblank. reflexivity.
      * apply same_parse_cons; [|apply same_parse_refl].
        symmetry. apply parse_line_lstrip.
      * simpl. rewrite (lstrip_keeps _ _ _ Ht), Hts. reflexivity.
Qed.

Lemma join_empty (L : list string) :
  ends_nonempty L = true -> PyStr.join nl L = "" -> L = [].
Proof.
  destruct L as [|l [|l2 ls]]; simpl; [reflexivity | |].
  - intros Hl ->. discriminate.
  - intros _ H. destruct l; discriminate.
Qed.

Lemma rstrip_join_step (t : string) (ts : list string) :
  PyStr.rstrip_with PyStr.isspace (PyStr.join nl (t :: ts))
  = if PyStr.is_empty (PyStr.rstrip_with PyStr.isspace (PyStr.join nl ts))
    then PyStr.rstrip_with PyStr.isspace t
    else t ++ nl ++ PyStr.rstrip_with PyStr.isspace (PyStr.join nl ts).
Proof.
  destruct ts as [|t2 ts]; [reflexivity|].
  rewrite join_cons by discriminate.
  rewrite rstrip_app.
  change (PyStr.rstrip_with PyStr.isspace (nl ++ PyStr.join nl (t2 :: ts)))
    with (if PyStr.is_empty (PyStr.rstrip_with PyStr.isspace (PyStr.join nl (t2 :: ts)))
               && true
          then "" else nl ++ PyStr.rstrip_with PyStr.isspace (PyStr.join nl (t2 :: ts))).
  rewrite andb_true_r.
  destruct (PyStr.is_empty (PyStr.rstrip_with PyStr.isspace (PyStr.join nl (t2 :: ts))));
    reflexivity.
Qed.

Lemma rstrip_join (L : list string) :
  lines_ok L = true ->
  exists L', PyStr.rstrip_with PyStr.isspace (PyStr.join nl L) = PyStr.join nl L' /\
             same_parse L L' /\ lines_ok L' = true /\ ends_nonempty L' = true.
Proof.
  induction L as [|t ts IH]; intro Hok.
  - exists []. split; [reflexivity|]. split; [apply same_parse_refl|]. split; reflexivity.
  - simpl in Hok. apply andb_true_iff in Hok. destruct Hok as [Ht Hts].
    destruct (IH Hts) as (ts' & Hr & Hsame & Hok' & Hend).
    rewrite rstrip_join_step, Hr.
    destruct (PyStr.is_empty (PyStr.join nl ts')) eqn:Hempty.
    + assert (Hnil : ts' = []) by (apply join_empty; [exact Hend | apply is_empty_true, Hempty]).
      subst ts'.
      destruct (PyStr.is_empty (PyStr.rstrip_with PyStr.isspace t)) eqn:Hblank.
      * exists []. rewrite (is_empty_true _ Hblank).
        split; [reflexivity|]. split; [|split; reflexivity].
        apply same_parse_skip; [|exact Hsame].
        apply parse_line_blank_r, is_empty_true, Hblank.
      * exists [PyStr.rstrip_with PyStr.isspace t]. split; [reflexivity|]. split; [|split].
        -- apply same_parse_cons; [|exact Hsame]. symmetry. apply parse_line_rstrip.
        -- simpl. rewrite (rstrip_keeps _ _ _ Ht). reflexivity.
        -- simpl. rewrite Hblank. reflexivity.
    + assert (Hne : ts' <> []) by (intros ->; discriminate).
      exists (t :: ts'). split; [|split; [|split]].
      * rewrite join_cons by exact Hne. reflexivity.
      * apply same_parse_cons; [reflexivity | exact Hsame].
      * simpl. rewrite Ht, Hok'. reflexivity.
      * destruct ts'; [congruence | exact Hend].
Qed.

Lemma splitlines_line (l : string) :
  PyStr.all_chars not_linebreak l = true -> l <> "" -> PyStr.splitlines l = [l].
Proof.
  induction l as [|c l IH]; [congruence|].
  simpl. unfold not_linebreak at 1. rewrite andb_true_iff, negb_true_iff.
  intros [-> Hl] _.
  destruct l as [|d l]; [reflexivity|].
  rewrite (IH Hl) by discriminate. reflexivity.
Qed.

Lemma splitlines_app_nl (l rest : string) :
  PyStr.all_chars not_linebreak l = true ->
  PyStr.splitlines (l ++ nl ++ rest) = l :: PyStr.splitlines rest.
Proof.
  induction l as [|c l IH].
  - intros _. destruct rest; reflexivity.
  - simpl. unfold not_linebreak at 1. rewrite andb_true_iff, negb_true_iff.
    intros [-> Hl]. simpl in IH. rewrite (IH Hl). reflexivity.
Qed.

Lemma splitlines_join (L : list string) :
  lines_ok L = true -> ends_nonempty L = true -> PyStr.splitlines (PyStr.join nl L) = L.
Proof.
  induction L as [|l ls IH]; [reflexivity|].
  intros Hok Hend. simpl in Hok. apply andb_true_iff in Hok. destruct Hok as [Hl Hls].
  destruct ls as [|l2 ls].
  - simpl in *. apply splitlines_line; [exact Hl|].
    destruct l; [discriminate | discriminate].
  - rewrite join_cons by discriminate.
    rewrite (splitlines_app_nl l _ Hl), (IH Hls Hend). reflexivity.
Qed.

(** Parsing the lines joined by line feeds is running the loop on the lines. *)
Lemma parse_joined (texts : list string) :
  lines_ok texts = true ->
  _parse_nvidia_smi (PyStr.join nl texts) = parse_loop texts [].
Proof.
  intro Hok. unfold _parse_nvidia_smi, PyStr.strip, PyStr.strip_with.
  destruct (lstrip_join texts Hok) as (L & -> & Hsame & HLok).
  destruct (rstrip_join L HLok) as (L' & -> & Hsame' & HLok' & Hend).
  rewrite (splitlines_join L' HLok' Hend).
  symmetry. apply (same_parse_trans _ _ _ Hsame Hsame').
Qed.

(** ** Decimal literals *)

Lemma digit_facts (c : ascii) :
  PyStr.isdecimal c = true ->
  Ascii.eqb c "_" = false /\ Ascii.eqb c "-" = false /\ Ascii.eqb c "+" = false /\
  PyStr.int_isspace c = false.
Proof.
  destruct c as [[] [] [] [] [] [] [] []]; intro H; vm_compute in H;
    try discriminate H; repeat split.
Qed.

Lemma literal_char_facts (c : ascii) :
  literal_char c = true ->
  PyStr.isspace c = false /\ PyStr.int_isspace c = false /\
  not_sep "," c = true /\ not_linebreak c = true.
Proof.
  destruct c as [[] [] [] [] [] [] [] []]; intro H; vm_compute in H;
    try discriminate H; repeat split.
Qed.

Lemma blank_facts (c : ascii) :
  isblank c = true ->
  PyStr.isspace c = true /\ not_sep "," c = true /\ not_linebreak c = true.
Proof.
  destruct c as [[] [] [] [] [] [] [] []]; intro H; vm_compute in H;
    try discriminate H; repeat split.
Qed.

Lemma uint_digits (s : string) (u : Decimal.uint) :
  NilEmpty.uint_of_string s = Some u -> PyStr.all_chars PyStr.isdecimal s = true.
Proof.
  revert u. induction s as [|c s IH]; intro u; simpl; [reflexivity|].
  destruct (NilEmpty.uint_of_string s) as [u'|]; [|discriminate].
  intro H. rewrite (IH u' eq_refl), andb_true_r.
  apply uint_of_char_spec in H.
  repeat (destruct H as [[-> _] | H]; [reflexivity|]).
  destruct H as [-> _]. reflexivity.
Qed.

Lemma literal_digits_id (s : string) :
  PyStr.all_chars PyStr.isdecimal s = true ->
  forall us, s <> "" \/ us = false -> PyStr.literal_digits us s = Some s.
Proof.
  induction s as [|c s IH]; intros Hs us Hus.
  - destruct Hus as [H | ->]; [congruence | reflexivity].
  - simpl in Hs. apply andb_true_iff in Hs. destruct Hs as [Hc Hs].
    destruct (digit_facts c Hc) as (Hu & _).
    simpl. rewrite Hu, Hc, (IH Hs false) by (right; reflexivity). reflexivity.
Qed.

Lemma unsigned_literal_digits (s : string) (u : Decimal.uint) :
  NilZero.uint_of_string s = Some u -> PyStr.unsigned_literal s = Some (Z.of_uint u).
Proof.
  intro H. unfold NilZero.uint_of_string in H.
  destruct s as [|c s]; [discriminate|].
  unfold PyStr.unsigned_literal.
  rewrite (literal_digits_id _ (uint_digits _ _ H) true) by (left; discriminate).
  rewrite H. reflexivity.
Qed.

(** [int] reads a decimal literal as the standard library does. *)
Lemma int_literal (lit : string) (z : Z) :
  literal_value lit = Some z ->
  PyStr.int lit = Some z /\ PyStr.all_chars literal_char lit = true.
Proof.
  unfold literal_value, NilZero.int_of_string.
  destruct lit as [|a s]; [discriminate|].
  destruct (Ascii.eqb_spec a "-") as [->|Hminus].
  - destruct (NilZero.uint_of_string s) as [u|] eqn:Hu; [|discriminate].
    intros [= <-].
    assert (Hd : PyStr.all_chars PyStr.isdecimal s = true).
    { unfold NilZero.uint_of_string in Hu. destruct s; [discriminate|].
      exact (uint_digits _ _ Hu). }
    assert (Hchars : PyStr.all_chars literal_char (String "-" s) = true).
    { simpl. apply (all_chars_impl PyStr.isdecimal); [|exact Hd].
      intros c Hc. unfold literal_char. rewrite Hc. reflexivity. }
    split; [|exact Hchars].
    unfold PyStr.int. rewrite strip_solid.
    + rewrite Ascii.eqb_refl, (unsigned_literal_digits s u Hu). reflexivity.
    + apply (all_chars_impl literal_char); [|exact Hchars].
      intros c Hc. destruct (literal_char_facts c Hc) as (_ & -> & _). reflexivity.
  - destruct (NilZero.uint_of_string (String a s)) as [u|] eqn:Hu; [|discriminate].
    intros [= <-].
    pose proof (uint_digits _ _ Hu) as Hd.
    assert (Hchars : PyStr.all_chars literal_char (String a s) = true).
    { apply (all_chars_impl PyStr.isdecimal); [|exact Hd].
      intros c Hc. unfold literal_char. rewrite Hc. reflexivity. }
    split; [|exact Hchars].
    simpl in Hd. apply andb_true_iff in Hd. destruct Hd as [Ha _].
    destruct (digit_facts a Ha) as (_ & Hm & Hp & _).
    unfold PyStr.int. rewrite strip_solid.
    + rewrite Hm, Hp, (unsigned_literal_digits _ u Hu). reflexivity.
    + apply (all_chars_impl literal_char); [|exact Hchars].
      intros c Hc. destruct (literal_char_facts c Hc) as (_ & -> & _). reflexivity.
Qed.

(** What [str] prints is a decimal literal of the integer printed. *)
Lemma literal_value_str (z : Z) : literal_value (PyStr.str z) = Some z.
Proof.
  unfold literal_value, PyStr.str.
  rewrite NilZero.isi.
  - simpl. rewrite DecimalZ.of_to. reflexivity.
  - destruct z; simpl; try discriminate.
    intros [= H]. exact (DecimalPos.Unsigned.to_uint_nonnil _ H).
  - destruct z; simpl; try discriminate.
    intros [= H]. exact (DecimalPos.Unsigned.to_uint_nonnil _ H).
Qed.

Lemma int_str (z : Z) : PyStr.int (PyStr.str z) = Some z.
Proof. apply int_literal, literal_value_str. Qed.

(** ** The parser on well-formed telemetry *)

Lemma field_reads (f : field) :
  field_ok f = true ->
  py_int (PyStr.strip (field_text f)) = Ok (field_value f) /\
  PyStr.all_chars (not_sep ",") (field_text f) = true /\
  PyStr.all_chars not_linebreak (field_text f) = true.
Proof.
  unfold field_ok, field_value, field_text.
  rewrite !andb_true_iff. intros [[Hlead Htrail] Hlit].
  destruct (literal_value (literal f)) as [z|] eqn:Hz; [|discriminate].
  destruct (int_literal _ _ Hz) as [Hint Hchars].
  split; [|split].
  - unfold py_int, PyStr.strip. rewrite strip_padded.
    + rewrite Hint. reflexivity.
    + apply (all_chars_impl isblank); [|exact Hlead]. intros c Hc. apply blank_facts, Hc.
    + apply (all_chars_impl isblank); [|exact Htrail]. intros c Hc. apply blank_facts, Hc.
    + apply (all_chars_impl literal_char); [|exact Hchars].
      intros c Hc. destruct (literal_char_facts c Hc) as (-> & _). reflexivity.
  - rewrite !all_chars_app, !andb_true_iff. repeat split.
    + apply (all_chars_impl isblank); [|exact Hlead]. intros c Hc. apply blank_facts, Hc.
    + apply (all_chars_impl literal_char); [|exact Hchars].
      intros c Hc. apply literal_char_facts, Hc.
    + apply (all_chars_impl isblank); [|exact Htrail]. intros c Hc. apply blank_facts, Hc.
  - rewrite !all_chars_app, !andb_true_iff. repeat split.
    + apply (all_chars_impl isblank); [|exact Hlead]. intros c Hc. apply blank_facts, Hc.
    + apply (all_chars_impl literal_char); [|exact Hchars].
      intros c Hc. apply literal_char_facts, Hc.
    + apply (all_chars_impl isblank); [|exact Htrail]. intros c Hc. apply blank_facts, Hc.
Qed.

Lemma split_four (t1 t2 t3 t4 : string) :
  PyStr.all_chars (not_sep ",") t1 = true -> PyStr.all_chars (not_sep ",") t2 = true ->
  PyStr.all_chars (not_sep ",") t3 = true -> PyStr.all_chars (not_sep ",") t4 = true ->
  PyStr.split "," (t1 ++ "," ++ t2 ++ "," ++ t3 ++ "," ++ t4) = [t1; t2; t3; t4].
Proof.
  intros H1 H2 H3 H4.
  change (t1 ++ "," ++ t2 ++ "," ++ t3 ++ "," ++ t4)
    with (t1 ++ String "," (t2 ++ String "," (t3 ++ String "," t4))).
  rewrite (split_app_sep "," t1 _ H1), (split_app_sep "," t2 _ H2),
    (split_app_sep "," t3 _ H3), (split_solid "," t4 H4).
  reflexivity.
Qed.

Lemma line_reads (l : input_line) :
  line_ok l = true ->
  PyStr.all_chars not_linebreak (line_text l) = true /\
  parse_line (line_text l)
  = Ok match l with
       | Reading f1 f2 f3 f4 =>
           Some (mk_gpu (field_value f1) (field_value f2) (field_value f3) (field_value f4))
       | Other _ => None
       end.
Proof.
  destruct l as [f1 f2 f3 f4 | text]; cbn [line_ok line_text].
  - rewrite !andb_true_iff. intros [[[H1 H2] H3] H4].
    destruct (field_reads f1 H1) as (V1 & S1 & L1).
    destruct (field_reads f2 H2) as (V2 & S2 & L2).
    destruct (field_reads f3 H3) as (V3 & S3 & L3).
    destruct (field_reads f4 H4) as (V4 & S4 & L4).
    split.
    + change (field_text f1 ++ "," ++ field_text f2 ++ "," ++ field_text f3 ++ ","
                ++ field_text f4)
        with (field_text f1 ++ String "," (field_text f2 ++ String ","
                (field_text f3 ++ String "," (field_text f4)))).
      rewrite all_chars_app. cbn [PyStr.all_chars].
      rewrite all_chars_app. cbn [PyStr.all_chars].
      rewrite all_chars_app. cbn [PyStr.all_chars].
      rewrite L1, L2, L3, L4. reflexivity.
    + unfold parse_line. rewrite (split_four _ _ _ _ S1 S2 S3 S4).
      cbn [map List.length Nat.eqb negb map_int]. rewrite V1, V2, V3, V4. reflexivity.
  - rewrite andb_true_iff. intros [Hl Hn]. split; [exact Hl|].
    unfold parse_line. rewrite length_map, Hn. reflexivity.
Qed.

Lemma lines_ok_texts (ls : list input_line) :
  forallb line_ok ls = true -> lines_ok (map line_text ls) = true.
Proof.
  induction ls as [|l ls IH]; simpl; [reflexivity|].
  rewrite andb_true_iff. intros [Hl Hls].
  destruct (line_reads l Hl) as [-> _]. auto.
Qed.

Lemma parse_loop_readings (ls : list input_line) :
  forallb line_ok ls = true ->
  forall acc, parse_loop (map line_text ls) acc = Ok (acc ++ readings ls)%list.
Proof.
  induction ls as [|l ls IH]; simpl; intros Hok acc.
  - rewrite app_nil_r. reflexivity.
  - apply andb_true_iff in Hok. destruct Hok as [Hl Hls].
    destruct (line_reads l Hl) as [_ ->].
    destruct l as [f1 f2 f3 f4 | text]; simpl.
    + rewrite (IH Hls), <- app_assoc. reflexivity.
    + apply (IH Hls).
Qed.

Lemma terminated_joined (ls : list input_line) :
  ls <> [] -> terminated ls = PyStr.join nl (map line_text (ls ++ [Other ""])).
Proof.
  induction ls as [|l ls IH]; [congruence|]. intros _.
  destruct ls as [|l2 ls]; [reflexivity|].
  change (terminated (l :: l2 :: ls)) with (line_text l ++ nl ++ terminated (l2 :: ls)).
  rewrite IH by discriminate. reflexivity.
Qed.

Lemma readings_app (ls ls' : list input_line) :
  readings (ls ++ ls') = (readings ls ++ readings ls')%list.
Proof.
  induction ls as [|[f1 f2 f3 f4 | text] ls IH]; simpl; [reflexivity | | exact IH].
  rewrite IH. reflexivity.
Qed.

(** C9: for telemetry whose lines are four comma-separated decimal integer
    fields, each with optional blanks around it, the parser returns one
    reading per such line, in the order of the lines, with [index], [util],
    [mem_used] and [mem_total] the integers of the four fields; lines that do
    not split into four fields at their commas contribute nothing.  This holds
    for the lines joined by line feeds and for the lines each ended by a line
    feed; the empty input gives the empty list; and the decimal literals
    include everything [str] prints. *)
Theorem C9_parse_well_formed_telemetry :
  (forall ls : list input_line,
      forallb line_ok ls = true ->
      _parse_nvidia_smi (PyStr.join nl (map line_text ls)) = Ok (readings ls) /\
      _parse_nvidia_smi (terminated ls) = Ok (readings ls)) /\
  _parse_nvidia_smi "" = Ok [] /\
  (forall z : Z, literal_value (PyStr.str z) = Some z).
Proof.
  assert (Hjoined : forall ls, forallb line_ok ls = true ->
            _parse_nvidia_smi (PyStr.join nl (map line_text ls)) = Ok (readings ls)).
  { intros ls Hok.
    rewrite (parse_joined _ (lines_ok_texts ls Hok)).
    apply (parse_loop_readings ls Hok []). }
  split; [|split; [reflexivity | exact literal_value_str]].
  intros ls Hok. split; [exact (Hjoined ls Hok)|].
  destruct ls as [|l ls]; [reflexivity|].
  rewrite terminated_joined by discriminate.
  rewrite Hjoined.
  - rewrite readings_app. simpl. rewrite app_nil_r. reflexivity.
  - rewrite forallb_app, Hok. reflexivity.
Qed.

(** ** The theorems at sample inputs *)

(** A device at 3% and 120 MB is idle under the default thresholds. *)
Lemma C1_witness : _is_gpu_idle (mk_gpu 0 3 120 8000) 5 500 = true.
Proof.
  apply (proj2 (proj1 (C1_idle_iff_within_thresholds (mk_gpu 0 3 120 8000) 5 500))).
  simpl. lia.
Defined.

(** The cycle on one idle and one busy device alerts for device 0. *)
Lemma C2_witness :
  exists before after,
    fst (check_cycle default_args no_env idle_answer)
    = (before ++ Print "ALERT: idle GPU(s) detected -> 0" :: Bell :: after)%list.
Proof.
  destruct (C2_alert_iff_idle default_args no_env idle_answer) as (_ & _ & H & _).
  apply H. vm_compute. discriminate.
Defined.

(** A refused connection: the failure is printed and the cycle goes on to sleep. *)
Lemma C3_witness :
  check_cycle mail_args no_env refusing_answer
  = ([RunNvidiaSmi;
      Print "GPU 0: util=3% mem=120/8000 MB";
      Print "GPU 1: util=97% mem=7000/8000 MB";
      Print "ALERT: idle GPU(s) detected -> 0";
      Bell;
      Smtp (SMTP "mail.example.org" 25);
      Print "Email alert failed: Connection refused";
      Sleep (Finite 5)],
     Next tt).
Proof.
  apply (C3_mail_failure_does_not_stop_loop mail_args no_env refusing_answer
           ("0, 3, 120, 8000" ++ nl ++ "1, 97, 7000, 8000" ++ nl) idle_readings
           mail_config [Smtp (SMTP "mail.example.org" 25)] "Connection refused");
    try reflexivity.
  vm_compute. discriminate.
Defined.

(** The first cycle of one run and the second of another, on the same telemetry. *)
Lemma C4_witness :
  filter is_alert (nth 0 (fst (main default_args no_env (fun _ => idle_answer) 1)) [])
  = filter is_alert (nth 1 (fst (main default_args no_env late_idle_world 2)) []).
Proof.
  destruct (C4_alerting_keeps_no_state default_args no_env) as [H _].
  destruct (H (fun _ => idle_answer) late_idle_world 1%nat 2%nat 0%nat 1%nat _ _
              eq_refl eq_refl eq_refl) as (_ & _ & _ & _ & _ & Hs).
  exact Hs.
Defined.



(** Under [--once] the run is one cycle long. *)
Lemma C7_witness :
  List.length (fst (main once_email_args no_env (fun _ => idle_answer) 1)) = 1%nat /\
  snd (main once_email_args no_env (fun _ => idle_answer) 1) <> Running.
Proof.
  destruct (C7_bounded_only_under_once once_email_args no_env (fun _ => idle_answer))
    as (H & _ & _).
  apply (H eq_refl 0%nat).
Defined.

(** Two readings around a blank line and a line of three fields. *)
Lemma C9_witness :
  _parse_nvidia_smi
    ("0, 3, 120, 8000 " ++ nl ++ nl ++ "1, 2, 3" ++ nl ++ " 1,-97 , 007, 8000")
  = Ok [mk_gpu 0 3 120 8000; mk_gpu 1 (-97) 7 8000].
Proof.
  apply (proj1 (proj1 C9_parse_well_formed_telemetry sample_lines eq_refl)).
Defined.

(** Without [--smtp_port], the port is the integer of [SMTP_PORT]. *)
Lemma C10_witness :
  PyStr.int "587" = Some 587.
Proof.
  destruct (C10_command_line_before_environment once_email_args port_env) as [H _].
  destruct (H (mk_config "mail.example.org" 587 "" "" "gpu@example.org" ["ops@example.org"])
              eq_refl) as (_ & _ & _ & Hport & _).
  apply (Hport eq_refl "587" eq_refl). discriminate.
Defined.

(** * Further properties of the code *)

(** ** [_send_email]: the order of the calls *)

Lemma send_email_run_plan (w : cycle_world) host port u p sender rcpts subject body ssl tls :
  _send_email w host port u p sender rcpts subject body ssl tls
  = run_plan w (send_plan host port u p sender rcpts subject body ssl tls).
Proof.
  unfold _send_email, send_plan, login_plan, login_if_given, bind, smtp_call, emit, ret.
  destruct ssl, tls, u as [u|], p as [p|]; try destruct (truthy u && truthy p);
    cbn [app run_plan];
    repeat match goal with
           | |- context [smtp w ?act] => destruct (smtp w act)
           end;
    reflexivity.
Qed.


Lemma run_plan_events (w : cycle_world) (plan : list smtp_action) (e : event) :
  In e (fst (run_plan w plan)) -> exists act, e = Smtp act /\ In act plan.
Proof.
  induction plan as [|a rest IH]; simpl; [intros []|].
  destruct (smtp w a) as [text|].
  - intros [<- | []]. exists a. auto.
  - destruct (run_plan w rest) as [t r]. simpl in *.
    intros [<- | Hin]; [exists a; auto|].
    destruct (IH Hin) as (act & -> & Hact). exists act. auto.
Qed.



Lemma login_plan_in (u p : option string) (act : smtp_action) :
  In act (login_plan u p) ->
  exists user pass, act = Login user pass /\ u = Some user /\ p = Some pass /\
                    user <> "" /\ pass <> "".
Proof.
  unfold login_plan. destruct u as [u|], p as [p|]; try (intros []).
  destruct (truthy u && truthy p) eqn:Ht; [|intros []].
  apply andb_true_iff in Ht. destruct Ht as [Hu Hp].
  intros [<- | []]. exists u, p. repeat split; apply truthy_true; assumption.
Qed.


(** The calls of the plan before [send_message]. *)
Lemma send_plan_front host port u p sender rcpts subject body ssl tls :
  exists front,
    send_plan host port u p sender rcpts subject body ssl tls
    = (front ++ [SendMessage (mk_message sender (PyStr.join ", " rcpts) subject body)])%list /\
    (forall m, ~ In (SendMessage m) front) /\
    (In Starttls front -> ssl = false /\ tls = true) /\
    (forall user pass, In (Login user pass) front ->
       u = Some user /\ p = Some pass /\ user <> "" /\ pass <> "").
Proof.
  unfold send_plan.
  exists ((if ssl then [SMTP_SSL host port]
           else SMTP host port :: (if tls then [Starttls] else [])) ++ login_plan u p)%list.
  split; [rewrite <- app_assoc; reflexivity|].
  assert (Hconn : forall act,
             In act (if ssl then [SMTP_SSL host port]
                     else SMTP host port :: (if tls then [Starttls] else [])) ->
             act = SMTP_SSL host port \/ act = SMTP host port \/
             (act = Starttls /\ ssl = false /\ tls = true)).
  { intros act. destruct ssl, tls; simpl; intuition. }
  split; [|split].
  - intros m Hin. apply in_app_or in Hin. destruct Hin as [Hin | Hin].
    + destruct (Hconn _ Hin) as [H | [H | [H _]]]; discriminate.
    + destruct (login_plan_in _ _ _ Hin) as (user & pass & H & _). discriminate.
  - intro Hin. apply in_app_or in Hin. destruct Hin as [Hin | Hin].
    + destruct (Hconn _ Hin) as [H | [H | [_ H]]]; [discriminate | discriminate | exact H].
    + destruct (login_plan_in _ _ _ Hin) as (user & pass & H & _). discriminate.
  - intros user pass Hin. apply in_app_or in Hin. destruct Hin as [Hin | Hin].
    + destruct (Hconn _ Hin) as [H | [H | [H _]]]; discriminate.
    + destruct (login_plan_in _ _ _ Hin) as (user' & pass' & [= -> ->] & H). exact H.
Qed.




(** ** The email block inside a cycle *)

Lemma report_not_mail (a : args) (gpus idle : list gpu) (e : event) :
  In e (report a gpus idle) -> is_mail e = false.
Proof.
  unfold report. destruct (json a).
  - intros [<- | []]. reflexivity.
  - intro Hin. apply in_map_iff in Hin. destruct Hin as (g & <- & _). reflexivity.
Qed.

Lemma alert_events_not_mail (idle : list gpu) (e : event) :
  In e (alert_events idle) -> is_mail e = false.
Proof.
  destruct idle as [|g idle]; simpl; [intros []|].
  intros [<- | [<- | []]]; reflexivity.
Qed.

Lemma mail_case_idle (a : args) (env : environ) (w : cycle_world) gpus idle mail o e :
  mail_case a env w gpus idle mail o -> In e mail -> idle <> [].
Proof.
  intros Hm Hin. inversion Hm; subst; try assumption; destruct Hin.
Qed.

(** A mail event of a cycle belongs to the email block, which comes after the
    status report, the alert line and the bell. *)
Lemma cycle_mail_events (a : args) (env : environ) (w : cycle_world) t r e :
  cycle_case a env w t r -> is_mail e = true -> In e t ->
  exists out gpus mail o after,
    nvidia_smi w = inl out /\ _parse_nvidia_smi out = Ok gpus /\
    mail_case a env w gpus (classify a gpus) mail o /\ In e mail /\
    t = (RunNvidiaSmi :: report a gpus (classify a gpus)
           ++ [Print (alert_line (classify a gpus)); Bell] ++ mail ++ after)%list /\
    (after = [] \/ after = [Sleep (interval a)]).
Proof.
  assert (Hhead : forall gpus,
             In e (report a gpus (classify a gpus) ++ alert_events (classify a gpus)) ->
             is_mail e = false).
  { intros gpus Hin. apply in_app_or in Hin. destruct Hin as [Hin | Hin].
    - exact (report_not_mail _ _ _ _ Hin).
    - exact (alert_events_not_mail _ _ Hin). }
  assert (Halert : forall gpus, classify a gpus <> [] ->
             alert_events (classify a gpus) = [Print (alert_line (classify a gpus)); Bell]).
  { intros gpus H. destruct (classify a gpus); [congruence | reflexivity]. }
  intros [text Hsmi | out err Hsmi Hparse | out gpus err Hsmi Hparse Hm
         | out gpus mail Hsmi Hparse Hm Ho | out gpus mail Hsmi Hparse Hm Ho] He Hin.
  - destruct Hin as [<- | [<- | []]]; discriminate.
  - destruct Hin as [<- | []]; discriminate.
  - destruct Hin as [<- | Hin]; [discriminate|].
    rewrite (Hhead gpus Hin) in He. discriminate.
  - destruct Hin as [<- | Hin]; [discriminate|].
    rewrite app_assoc in Hin. apply in_app_or in Hin. destruct Hin as [Hin | Hin].
    { rewrite (Hhead gpus Hin) in He. discriminate. }
    exists out, gpus, mail, None, [].
    rewrite (Halert gpus (mail_case_idle _ _ _ _ _ _ _ _ Hm Hin)), app_nil_r.
    repeat split; auto.
  - destruct Hin as [<- | Hin]; [discriminate|].
    rewrite app_assoc in Hin. apply in_app_or in Hin. destruct Hin as [Hin | Hin].
    { rewrite (Hhead gpus Hin) in He. discriminate. }
    apply in_app_or in Hin. destruct Hin as [Hin | [<- | []]]; [|discriminate].
    exists out, gpus, mail, None, [Sleep (interval a)].
    rewrite (Halert gpus (mail_case_idle _ _ _ _ _ _ _ _ Hm Hin)).
    repeat split; auto.
Qed.


(** The calls on [smtplib] of a cycle are those of its one call of
    [_send_email], made with the resolved settings. *)
Lemma cycle_smtp_of_send_alert (a : args) (env : environ) (w : cycle_world) (act : smtp_action) :
  In (Smtp act) (fst (check_cycle a env w)) ->
  exists out gpus c,
    nvidia_smi w = inl out /\ _parse_nvidia_smi out = Ok gpus /\
    resolve_smtp a env = Ok c /\ config_complete c = true /\
    In (Smtp act) (fst (send_alert a w c gpus (classify a gpus))).
Proof.
  intro Hin.
  destruct (cycle_mail_events a env w _ _ (Smtp act) (check_cycle_case a env w) eq_refl Hin)
    as (out & gpus & mail & o & after & Hsmi & Hparse & Hm & Hmail & _ & _).
  exists out, gpus.
  inversion Hm as [ | | c | c sent Hidle He Hr Hc Hsend Hs | c sent text Hidle He Hr Hc Hsend Hs];
    subst.
  - destruct Hmail.
  - destruct Hmail.
  - destruct Hmail as [Hmail | []]. discriminate.
  - exists c. rewrite Hsend. simpl.
    apply in_app_or in Hmail. destruct Hmail as [Hmail | [Hmail | []]]; [auto | discriminate].
  - exists c. rewrite Hsend. simpl.
    apply in_app_or in Hmail. destruct Hmail as [Hmail | [Hmail | []]]; [auto | discriminate].
Qed.

Lemma or_none_some (s u : string) : or_none s = Some u -> u = s /\ s <> "".
Proof.
  unfold or_none. destruct (truthy s) eqn:Ht; [|discriminate].
  intros [= <-]. split; [reflexivity | apply truthy_true, Ht].
Qed.

(** X4: a cycle logs in to the mail server only with the resolved user and
    password, and only when both are non-empty: a user without a password,
    or a password without a user, is never sent. *)
Theorem login_only_with_user_and_password :
  forall (a : args) (env : environ) (w : cycle_world) (user pass : string),
    In (Smtp (Login user pass)) (fst (check_cycle a env w)) ->
    exists c, resolve_smtp a env = Ok c /\
              user = cfg_user c /\ pass = cfg_pass c /\ user <> "" /\ pass <> "".
Proof.
  intros a env w user pass Hin.
  destruct (cycle_smtp_of_send_alert a env w _ Hin)
    as (out & gpus & c & _ & _ & Hr & _ & Hsend).
  exists c. split; [exact Hr|].
  unfold send_alert in Hsend. rewrite send_email_run_plan in Hsend.
  destruct (run_plan_events w _ _ Hsend) as (act & [= <-] & Hact).
  destruct (send_plan_front (cfg_host c) (cfg_port c) (or_none (cfg_user c))
              (or_none (cfg_pass c)) (cfg_sender c) (cfg_recipients c)
              ("GPU idle alert: " ++ idle_ids (classify a gpus))
              (PyStr.join nl (map status_line gpus)) (smtp_ssl a) (smtp_tls a))
    as (front & Hplan & _ & _ & Hlogin).
  rewrite Hplan in Hact. apply in_app_or in Hact.
  destruct Hact as [Hact | [H | []]]; [|discriminate].
  destruct (Hlogin user pass Hact) as (Hu & Hp & _ & _).
  destruct (or_none_some _ _ Hu) as [-> Hune].
  destruct (or_none_some _ _ Hp) as [-> Hpne].
  auto.
Qed.




(** X6: the local alert comes first: every event of the email block of a
    cycle, a call on [smtplib] or a line about the email, is preceded in that
    cycle by the alert line and the bell. *)
Theorem alert_precedes_mail :
  forall (a : args) (env : environ) (w : cycle_world) (e : event),
    is_mail e = true ->
    In e (fst (check_cycle a env w)) ->
    exists before after,
      fst (check_cycle a env w) = (before ++ e :: after)%list /\
      In (Print (alert_line (classify a (cycle_devices w)))) before /\
      In Bell before.
Proof.
  intros a env w e He Hin.
  destruct (cycle_mail_events a env w _ _ _ (check_cycle_case a env w) He Hin)
    as (out & gpus & mail & o & after & Hsmi & Hparse & Hm & Hmail & Ht & _).
  assert (Hdev : cycle_devices w = gpus).
  { unfold cycle_devices. rewrite Hsmi, Hparse. reflexivity. }
  rewrite Ht, Hdev.
  destruct (in_split _ _ Hmail) as (m1 & m2 & ->).
  exists (RunNvidiaSmi :: report a gpus (classify a gpus)
            ++ [Print (alert_line (classify a gpus)); Bell] ++ m1)%list,
         (m2 ++ after)%list.
  split; [simpl; rewrite <- !app_assoc; reflexivity|].
  split; right; apply in_or_app; right; simpl; auto.
Qed.

(** ** Recipients *)

Lemma strip_idem (s : string) : PyStr.strip (PyStr.strip s) = PyStr.strip s.
Proof.
  unfold PyStr.strip, PyStr.strip_with.
  rewrite lstrip_rstrip, lstrip_idem, rstrip_idem. reflexivity.
Qed.

Lemma strip_keeps (p : ascii -> bool) (s : string) :
  PyStr.all_chars p s = true -> PyStr.all_chars p (PyStr.strip s) = true.
Proof.
  intro H. unfold PyStr.strip, PyStr.strip_with. apply rstrip_keeps, lstrip_keeps, H.
Qed.

Lemma split_fields_no_sep (sep : ascii) (s f : string) :
  In f (PyStr.split sep s) -> PyStr.all_chars (not_sep sep) f = true.
Proof.
  revert f. induction s as [|c s IH]; simpl; intro f.
  - intros [<- | []]. reflexivity.
  - destruct (Ascii.eqb c sep) eqn:Hc.
    + intros [<- | Hin]; [reflexivity | auto].
    + destruct (PyStr.split sep s) as [|f0 fs]; simpl.
      * intros [<- | []]. simpl. unfold not_sep. rewrite Hc. reflexivity.
      * intros [<- | Hin].
        -- simpl. unfold not_sep at 1. rewrite Hc. simpl. apply IH. now left.
        -- apply IH. now right.
Qed.

Lemma parse_recipients_in (s r : string) :
  In r (parse_recipients s) ->
  r <> "" /\ PyStr.strip r = r /\ PyStr.all_chars (not_sep ",") r = true.
Proof.
  unfold parse_recipients. rewrite filter_In, in_map_iff.
  intros [(f & <- & Hf) Ht]. split; [apply truthy_true, Ht|].
  split; [apply strip_idem|].
  apply strip_keeps, (split_fields_no_sep "," s f Hf).
Qed.

(** X7: every recipient the program resolves is a non-empty text without
    white space at its ends and without a comma; empty entries of the list
    given by [--email_to] or [SMTP_TO] are dropped, so a list of nothing but
    commas and white space resolves to no recipient. *)
Theorem recipients_are_clean :
  forall (a : args) (env : environ),
    (forall r, In r (resolve_recipients a env) ->
       r <> "" /\ PyStr.strip r = r /\ PyStr.all_chars (not_sep ",") r = true) /\
    (PyStr.all_chars (fun c => PyStr.isspace c || Ascii.eqb c ",")
       (str_or (email_to a) (getenv env "SMTP_TO" "")) = true ->
     resolve_recipients a env = []).
Proof.
  intros a env. split.
  - intros r. apply parse_recipients_in.
  - unfold resolve_recipients.
    generalize (str_or (email_to a) (getenv env "SMTP_TO" "")). intros s Hs.
    assert (H : forall f, In f (map PyStr.strip (PyStr.split "," s)) -> f = "").
    { intros f Hin. apply in_map_iff in Hin. destruct Hin as (x & <- & Hx).
      pose proof (split_fields_no_sep "," s x Hx) as Hnc.
      assert (Hsp : PyStr.all_chars PyStr.isspace x = true).
      { clear Hnc. revert x Hx. induction s as [|c s IH]; simpl; intros x.
        - intros [<- | []]. reflexivity.
        - simpl in Hs. apply andb_true_iff in Hs. destruct Hs as [Hc Hs].
          destruct (Ascii.eqb c ",") eqn:Hcomma.
          + intros [<- | Hin]; [reflexivity | auto].
          + rewrite orb_false_r in Hc.
            destruct (PyStr.split "," s) as [|f0 fs] eqn:Hsplit; simpl.
            * intros [<- | []]. simpl. rewrite Hc. reflexivity.
            * intros [<- | Hin].
              -- simpl. rewrite Hc. simpl. apply (IH Hs). now left.
              -- apply (IH Hs). now right. }
      unfold PyStr.strip, PyStr.strip_with. rewrite (lstrip_spaces _ _ Hsp). reflexivity. }
    induction (map PyStr.strip (PyStr.split "," s)) as [|f fs IH]; [reflexivity|].
    simpl. rewrite (H f (or_introl eq_refl)). simpl. apply IH.
    intros f' Hf'. apply H. now right.
Qed.

Lemma parse_recipients_space (s : string) :
  parse_recipients (String " " s) = parse_recipients s.
Proof.
  unfold parse_recipients. f_equal.
  change (String " " s) with (" " ++ s).
  simpl PyStr.split.
  destruct (PyStr.split "," s) as [|f fs] eqn:Hs.
  - exfalso. exact (split_nonempty "," s Hs).
  - reflexivity.
Qed.

Lemma parse_recipients_joined (rs : list string) :
  (forall r, In r rs ->
     r <> "" /\ PyStr.strip r = r /\ PyStr.all_chars (not_sep ",") r = true) ->
  parse_recipients (PyStr.join ", " rs) = rs.
Proof.
  induction rs as [|r rs IH]; intro H; [reflexivity|].
  destruct (H r (or_introl eq_refl)) as (Hne & Hstrip & Hnc).
  apply truthy_true in Hne.
  destruct rs as [|r2 rs].
  - simpl. unfold parse_recipients. rewrite (split_solid "," r Hnc). simpl.
    rewrite Hstrip, Hne. reflexivity.
  - rewrite join_cons by discriminate.
    change (r ++ ", " ++ PyStr.join ", " (r2 :: rs))
      with (r ++ String "," (String " " (PyStr.join ", " (r2 :: rs)))).
    unfold parse_recipients. rewrite (split_app_sep "," r _ Hnc).
    cbn [map filter]. rewrite Hstrip, Hne. f_equal.
    fold (parse_recipients (String " " (PyStr.join ", " (r2 :: rs)))).
    rewrite parse_recipients_space. apply IH.
    intros r' Hr'. apply H. now right.
Qed.

(** X8: the [To] header of the message, read back the way [--email_to] is
    read, gives the recipients again: joining them with a comma and a space
    loses none and merges none. *)
Theorem to_header_round_trip :
  forall (a : args) (env : environ),
    parse_recipients (PyStr.join ", " (resolve_recipients a env))
    = resolve_recipients a env /\
    resolve_recipients a env
    = parse_recipients (str_or (email_to a) (getenv env "SMTP_TO" "")).
Proof.
  intros a env. split; [|reflexivity].
  apply parse_recipients_joined. intros r. apply parse_recipients_in.
Qed.

(** ** The indices in the alert line and the status lines *)

Lemma split_joined (fs : list string) :
  fs <> [] ->
  (forall f, In f fs -> PyStr.all_chars (not_sep ",") f = true) ->
  PyStr.split "," (PyStr.join "," fs) = fs.
Proof.
  induction fs as [|f fs IH]; [congruence|]. intros _ H.
  destruct fs as [|f2 fs].
  - simpl. apply split_solid, H. now left.
  - rewrite join_cons by discriminate.
    change (f ++ "," ++ PyStr.join "," (f2 :: fs))
      with (f ++ String "," (PyStr.join "," (f2 :: fs))).
    rewrite split_app_sep by (apply H; now left).
    rewrite IH; [reflexivity | discriminate |].
    intros f' Hf'. apply H. now right.
Qed.

Lemma str_chars (z : Z) : PyStr.all_chars literal_char (PyStr.str z) = true.
Proof. apply (int_literal _ z), literal_value_str. Qed.

Lemma str_no_comma (z : Z) : PyStr.all_chars (not_sep ",") (PyStr.str z) = true.
Proof.
  apply (all_chars_impl literal_char); [|apply str_chars].
  intros c Hc. apply literal_char_facts, Hc.
Qed.

Lemma str_inj (z z' : Z) : PyStr.str z = PyStr.str z' -> z = z'.
Proof.
  intro H. pose proof (int_str z) as Hz. rewrite H, int_str in Hz. congruence.
Qed.

(** X9: the indices listed in the alert line, and in the subject of the
    email, can be read back: splitting the list at its commas and applying
    [int] gives the indices of the idle devices, in order. *)
Theorem alert_indices_round_trip :
  forall (idle : list gpu),
    idle <> [] ->
    map PyStr.int (PyStr.split "," (idle_ids idle)) = map (fun g => Some (index g)) idle.
Proof.
  intros idle Hne. unfold idle_ids.
  rewrite split_joined.
  - rewrite map_map. apply map_ext. intro g. apply int_str.
  - destruct idle; [congruence | discriminate].
  - intros f Hin. apply in_map_iff in Hin. destruct Hin as (g & <- & _).
    apply str_no_comma.
Qed.

Lemma app_delim_inj (p : ascii -> bool) (d : ascii) (x x' y y' : string) :
  PyStr.all_chars p x = true -> PyStr.all_chars p x' = true -> p d = false ->
  x ++ String d y = x' ++ String d y' -> x = x' /\ y = y'.
Proof.
  intros Hx Hx' Hd. revert x' Hx'.
  induction x as [|c x IH]; intros [|c' x'] Hx'; simpl.
  - intros [= ->]. auto.
  - intros [= <- _]. simpl in Hx'. rewrite Hd in Hx'. discriminate.
  - intros [= -> _]. simpl in Hx. rewrite Hd in Hx. discriminate.
  - intros [= -> H]. simpl in Hx, Hx'.
    apply andb_true_iff in Hx. apply andb_true_iff in Hx'.
    destruct (IH (proj2 Hx) x' (proj2 Hx') H) as [-> ->]. auto.
Qed.

(** X10: a status line determines the reading it was printed for: two
    readings with the same line have the same index, utilization, used and
    total memory. *)
Theorem status_line_determines_reading :
  forall (g g' : gpu), status_line g = status_line g' -> g = g'.
Proof.
  intros [i u m t] [i' u' m' t']. unfold status_line. simpl.
  intros [= H].
  apply (app_delim_inj literal_char ":") in H; try apply str_chars; try reflexivity.
  destruct H as [Hi H]. injection H as H.
  apply (app_delim_inj literal_char "%") in H; try apply str_chars; try reflexivity.
  destruct H as [Hu H]. injection H as H.
  apply (app_delim_inj literal_char "/") in H; try apply str_chars; try reflexivity.
  destruct H as [Hm H].
  apply (app_delim_inj literal_char " ") in H; try apply str_chars; try reflexivity.
  destruct H as [Ht _].
  apply str_inj in Hi, Hu, Hm, Ht. subst. reflexivity.
Qed.

(** ** Thresholds *)

(** X11: raising a threshold never takes a device off the idle list: with
    [util_th] and [mem_th] both at least as large, every device that was idle
    is still idle, and the idle devices are always among the parsed ones. *)
Theorem idle_list_grows_with_thresholds :
  forall (a a' : args) (gpus : list gpu),
    util_th a <= util_th a' -> mem_th a <= mem_th a' ->
    (forall g, In g (classify a gpus) -> In g (classify a' gpus)) /\
    (List.length (classify a gpus) <= List.length (classify a' gpus))%nat /\
    (List.length (classify a' gpus) <= List.length gpus)%nat.
Proof.
  intros a a' gpus Hu Hm.
  assert (Himp : forall g, _is_gpu_idle g (util_th a) (mem_th a) = true ->
                           _is_gpu_idle g (util_th a') (mem_th a') = true).
  { intros g. rewrite !is_gpu_idle_true. lia. }
  split; [|split].
  - intros g. unfold classify. rewrite !filter_In. intros [Hin Hg]. auto.
  - unfold classify. induction gpus as [|g gpus IH]; simpl; [lia|].
    destruct (_is_gpu_idle g (util_th a) (mem_th a)) eqn:Hg.
    + rewrite (Himp g Hg). simpl. lia.
    + destruct (_is_gpu_idle g (util_th a') (mem_th a')); simpl; lia.
  - unfold classify. apply filter_length_le.
Qed.

(** ** The parser on arbitrary telemetry *)

Lemma strip_surrounded (l s t : string) :
  PyStr.all_chars PyStr.isspace l = true -> PyStr.all_chars PyStr.isspace t = true ->
  PyStr.strip (l ++ s ++ t) = PyStr.strip s.
Proof.
  intros Hl Ht. unfold PyStr.strip, PyStr.strip_with.
  rewrite lstrip_app, (lstrip_spaces _ l Hl). cbn [PyStr.is_empty].
  rewrite lstrip_app.
  destruct (PyStr.is_empty (PyStr.lstrip_with PyStr.isspace s)) eqn:He.
  - rewrite (lstrip_spaces _ t Ht), (is_empty_true _ He). reflexivity.
  - rewrite rstrip_app, (rstrip_spaces _ t Ht). reflexivity.
Qed.

(** X12: white space around the telemetry, line breaks included, does not
    change what the parser returns or raises. *)
Theorem parser_ignores_surrounding_space :
  forall (l s t : string),
    PyStr.all_chars PyStr.isspace l = true ->
    PyStr.all_chars PyStr.isspace t = true ->
    _parse_nvidia_smi (l ++ s ++ t) = _parse_nvidia_smi s.
Proof.
  intros l s t Hl Ht. unfold _parse_nvidia_smi.
  rewrite (strip_surrounded l s t Hl Ht). reflexivity.
Qed.

Lemma parse_blank (out : string) :
  PyStr.all_chars PyStr.isspace out = true -> _parse_nvidia_smi out = Ok [].
Proof.
  intro H. unfold _parse_nvidia_smi, PyStr.strip, PyStr.strip_with.
  rewrite (lstrip_spaces _ out H). reflexivity.
Qed.

(** X13: when the telemetry source prints nothing but white space, the cycle
    finds no device: it prints no status line (one empty report under
    [--json]), raises no alert and makes no call on [smtplib]; under [--once]
    it returns 1, and otherwise it goes to sleep. *)
Theorem blank_telemetry_means_no_device :
  forall (a : args) (env : environ) (w : cycle_world) (out : string),
    nvidia_smi w = inl out ->
    PyStr.all_chars PyStr.isspace out = true ->
    cycle_devices w = [] /\
    check_cycle a env w
    = ((RunNvidiaSmi :: (if json a then [Print (json_report [] [])] else [])
          ++ (if once a then [] else [Sleep (interval a)]))%list,
       if once a then Return 1
       else match sleep w with
            | None => Next tt
            | Some text => Raise (Error text)
            end).
Proof.
  intros a env w out Hsmi Hblank.
  pose proof (parse_blank out Hblank) as Hparse.
  split.
  - unfold cycle_devices. rewrite Hsmi, Hparse. reflexivity.
  - rewrite (check_cycle_parsed a env w out [] Hsmi Hparse). cbv zeta.
    unfold classify, report, cycle_end, time_sleep. simpl.
    destruct (json a), (once a); simpl; try reflexivity; destruct (sleep w); reflexivity.
Qed.

Lemma split_length (s : string) :
  List.length (PyStr.split "," s) = S (commas s).
Proof.
  induction s as [|c s IH]; [reflexivity|]. simpl.
  destruct (Ascii.eqb c ","); simpl; [rewrite IH; reflexivity|].
  destruct (PyStr.split "," s); simpl in *; [discriminate | exact IH].
Qed.

Lemma four_fields_commas (line : string) : four_fields line = true <-> commas line = 3%nat.
Proof.
  unfold four_fields. rewrite split_length, Nat.eqb_eq. lia.
Qed.

Lemma map_int_cases (parts : list string) :
  (exists zs, map_int parts = Ok zs /\ List.length zs = List.length parts /\
              forall fld, In fld parts -> PyStr.int fld <> None) \/
  (exists fld, map_int parts = Raised (InvalidLiteral fld) /\ In fld parts /\
               PyStr.int fld = None).
Proof.
  induction parts as [|p ps IH]; simpl.
  - left. exists []. repeat split. intros fld [].
  - unfold py_int. destruct (PyStr.int p) as [z|] eqn:Hp; simpl.
    + destruct IH as [(zs & -> & Hlen & Hall) | (fld & -> & Hin & Hbad)]; simpl.
      * left. exists (z :: zs). split; [reflexivity|]. split; [simpl; lia|].
        intros fld [<- | Hin]; [congruence | auto].
      * right. exists fld. auto.
    + right. exists p. auto.
Qed.

(** The three ways the body of the loop can go on a line. *)
Lemma parse_line_cases (line : string) :
  (four_fields line = false /\ parse_line line = Ok None) \/
  (four_fields line = true /\ ~ bad_field line /\ exists g, parse_line line = Ok (Some g)) \/
  (four_fields line = true /\ bad_field line /\
   exists fld, parse_line line = Raised (InvalidLiteral fld) /\ PyStr.int fld = None).
Proof.
  unfold parse_line, four_fields, bad_field.
  rewrite length_map.
  destruct (List.length (PyStr.split "," line) =? 4)%nat eqn:Hfour; simpl; [right | left; auto].
  destruct (map_int_cases (map PyStr.strip (PyStr.split "," line)))
    as [(zs & Hzs & Hlen & Hall) | (fld & Hraise & Hin & Hbad)].
  - left. split; [reflexivity|]. split.
    + intros (fld & Hin & Hbad). exact (Hall fld Hin Hbad).
    + rewrite Hzs. simpl. rewrite length_map in Hlen. apply Nat.eqb_eq in Hfour.
      rewrite Hfour in Hlen.
      destruct zs as [|z1 [|z2 [|z3 [|z4 [|z5 zs]]]]]; try discriminate. eauto.
  - right. split; [reflexivity|]. split; [exists fld; auto|].
    exists fld. rewrite Hraise. auto.
Qed.

Lemma parse_loop_cases (lines : list string) :
  forall acc,
    (exists gpus, parse_loop lines acc = Ok gpus /\
       List.length gpus = (List.length acc + List.length (filter four_fields lines))%nat /\
       forall line, In line lines -> four_fields line = true -> ~ bad_field line) \/
    (exists fld line, parse_loop lines acc = Raised (InvalidLiteral fld) /\
       PyStr.int fld = None /\ In line lines /\ four_fields line = true /\ bad_field line).
Proof.
  induction lines as [|l lines IH]; intro acc; simpl.
  - left. exists acc. split; [reflexivity|]. split; [lia|]. intros line [].
  - destruct (parse_line_cases l)
      as [(Hf & ->) | [(Hf & Hgood & g & ->) | (Hf & Hbad & fld & -> & Hfld)]];
      rewrite Hf; simpl.
    + destruct (IH acc) as [(gpus & -> & Hlen & Hall) | (fld & line & -> & H1 & H2 & H3)].
      * left. exists gpus. split; [reflexivity|]. split; [exact Hlen|].
        intros line [<- | Hin] Hfour; [congruence | auto].
      * right. exists fld, line. tauto.
    + destruct (IH (acc ++ [g])%list)
        as [(gpus & -> & Hlen & Hall) | (fld & line & -> & H1 & H2 & H3)].
      * left. exists gpus. split; [reflexivity|]. split.
        -- rewrite Hlen, length_app. simpl. lia.
        -- intros line [<- | Hin] Hfour; [exact Hgood | auto].
      * right. exists fld, line. tauto.
    + right. exists fld, l. auto.
Qed.

(** X14: the parser raises exactly when some line with three commas has a
    field that [int] rejects, and then it raises the [ValueError] of such a
    field; lines with another number of commas never make it fail, whatever
    they hold.  When it returns, it returns as many readings as there are
    lines with three commas. *)
Theorem parser_fails_exactly_on_a_bad_field :
  forall (output : string),
    (forall gpus, _parse_nvidia_smi output = Ok gpus ->
       List.length gpus
       = List.length (filter (fun line => (commas line =? 3)%nat)
                        (PyStr.splitlines (PyStr.strip output)))) /\
    ((exists e, _parse_nvidia_smi output = Raised e) <->
     exists line, In line (PyStr.splitlines (PyStr.strip output)) /\
                  commas line = 3%nat /\ bad_field line) /\
    (forall e, _parse_nvidia_smi output = Raised e ->
       exists fld, e = InvalidLiteral fld /\ PyStr.int fld = None).
Proof.
  intro output. unfold _parse_nvidia_smi.
  assert (Hfilter : filter (fun line => (commas line =? 3)%nat)
                      (PyStr.splitlines (PyStr.strip output))
                    = filter four_fields (PyStr.splitlines (PyStr.strip output))).
  { apply filter_ext. intro line. unfold four_fields. rewrite split_length. reflexivity. }
  rewrite Hfilter.
  destruct (parse_loop_cases (PyStr.splitlines (PyStr.strip output)) [])
    as [(gpus & Hok & Hlen & Hall) | (fld & line & Hraise & Hfld & Hin & Hfour & Hbad)].
  - rewrite Hok. split; [|split].
    + intros gpus' [= <-]. exact Hlen.
    + split; [intros (e & H); discriminate|].
      intros (line & Hin & Hc & Hbad). exfalso.
      apply (Hall line Hin); [apply four_fields_commas, Hc | exact Hbad].
    + intros e H. discriminate.
  - rewrite Hraise. split; [|split].
    + intros gpus H. discriminate.
    + split; [|eauto]. intros _. exists line.
      split; [exact Hin|]. split; [apply four_fields_commas, Hfour | exact Hbad].
    + intros e [= <-]. eauto.
Qed.

Lemma parse_loop_acc (lines : list string) :
  forall acc,
    parse_loop lines acc = res_bind (parse_loop lines []) (fun gpus => Ok (acc ++ gpus)%list).
Proof.
  induction lines as [|l lines IH]; intro acc; simpl.
  - rewrite app_nil_r. reflexivity.
  - destruct (parse_line l) as [[g|]|e]; simpl; [|apply IH | reflexivity].
    rewrite (IH (acc ++ [g])%list), (IH [g]).
    destruct (parse_loop lines []) as [gpus|e]; simpl; [|reflexivity].
    rewrite <- app_assoc. reflexivity.
Qed.

Lemma parse_loop_app (L1 L2 : list string) :
  forall acc,
    parse_loop (L1 ++ L2) acc = res_bind (parse_loop L1 acc) (parse_loop L2).
Proof.
  induction L1 as [|l L1 IH]; intro acc; simpl; [reflexivity|].
  destruct (parse_line l) as [[g|]|e]; simpl; auto.
Qed.

Lemma lines_ok_app (L1 L2 : list string) :
  lines_ok (L1 ++ L2) = lines_ok L1 && lines_ok L2.
Proof. unfold lines_ok. apply forallb_app. Qed.

(** X15: parsing composes: for two lists of lines without line boundaries,
    the parser on all the lines joined by line feeds returns the readings of
    the first list followed by those of the second, and raises what the first
    list raises, or else what the second raises. *)
Theorem parser_composes :
  forall (L1 L2 : list string),
    lines_ok L1 = true -> lines_ok L2 = true ->
    _parse_nvidia_smi (PyStr.join nl (L1 ++ L2))
    = res_bind (_parse_nvidia_smi (PyStr.join nl L1)) (fun g1 =>
      res_bind (_parse_nvidia_smi (PyStr.join nl L2)) (fun g2 =>
      Ok (g1 ++ g2)%list)).
Proof.
  intros L1 L2 H1 H2.
  rewrite !parse_joined by (rewrite ?lines_ok_app, ?H1, ?H2; reflexivity).
  rewrite parse_loop_app.
  destruct (parse_loop L1 []) as [g1|e]; simpl; [|reflexivity].
  apply parse_loop_acc.
Qed.

(** ** Other line endings *)

Section JoinedBy.
Variable sepr : string.
Hypothesis sepr_space : PyStr.all_chars PyStr.isspace sepr = true.
Hypothesis sepr_nonempty : sepr <> "".
Hypothesis sepr_splits :
  forall l rest, PyStr.all_chars not_linebreak l = true ->
                 PyStr.splitlines (l ++ sepr ++ rest) = l :: PyStr.splitlines rest.

Lemma lstrip_sepr (x : string) :
  PyStr.lstrip_with PyStr.isspace (sepr ++ x) = PyStr.lstrip_with PyStr.isspace x.
Proof. rewrite lstrip_app, (lstrip_spaces _ _ sepr_space). reflexivity. Qed.

Lemma rstrip_sepr (x : string) :
  PyStr.rstrip_with PyStr.isspace (sepr ++ x)
  = if PyStr.is_empty (PyStr.rstrip_with PyStr.isspace x) then ""
    else sepr ++ PyStr.rstrip_with PyStr.isspace x.
Proof. rewrite rstrip_app, (rstrip_spaces _ _ sepr_space). reflexivity. Qed.

Lemma sepr_app_nonempty (x : string) : PyStr.is_empty (sepr ++ x) = false.
Proof. destruct sepr; [congruence | reflexivity]. Qed.

Lemma lstrip_join_by (texts : list string) :
  lines_ok texts = true ->
  exists L, PyStr.lstrip_with PyStr.isspace (PyStr.join sepr texts) = PyStr.join sepr L /\
            same_parse texts L /\ lines_ok L = true.
Proof.
  induction texts as [|t ts IH]; intro Hok.
  - exists []. split; [reflexivity|]. split; [apply same_parse_refl | reflexivity].
  - simpl in Hok. apply andb_true_iff in Hok. destruct Hok as [Ht Hts].
    destruct (IH Hts) as (L & HL & Hsame & HLok).
    destruct (PyStr.is_empty (PyStr.lstrip_with PyStr.isspace t)) eqn:Hblank.
    + exists L. split; [|split; [|exact HLok]].
      * destruct ts as [|t2 ts].
        -- simpl in *. rewrite (is_empty_true _ Hblank). exact HL.
        -- rewrite join_cons by discriminate.
           rewrite lstrip_app, Hblank, lstrip_sepr. exact HL.
      * apply same_parse_skip; [|exact Hsame].
        apply parse_line_blank, is_empty_true, Hblank.
    + exists (PyStr.lstrip_with PyStr.isspace t :: ts). split; [|split].
      * destruct ts as [|t2 ts]; [reflexivity|].
        rewrite !join_cons by discriminate.
        rewrite lstrip_app, Hblank. reflexivity.
      * apply same_parse_cons; [|apply same_parse_refl].
        symmetry. apply parse_line_lstrip.
      * simpl. rewrite (lstrip_keeps _ _ _ Ht), Hts. reflexivity.
Qed.

Lemma join_empty_by (L : list string) :
  ends_nonempty L = true -> PyStr.join sepr L = "" -> L = [].
Proof.
  destruct L as [|l [|l2 ls]]; [reflexivity | |].
  - simpl. intros Hl ->. discriminate.
  - intros _ H. rewrite join_cons in H by discriminate.
    destruct l; [|discriminate].
    apply (f_equal PyStr.is_empty) in H. cbn [append] in H.
    rewrite sepr_app_nonempty in H. discriminate.
Qed.

Lemma rstrip_join_step_by (t : string) (ts : list string) :
  PyStr.rstrip_with PyStr.isspace (PyStr.join sepr (t :: ts))
  = if PyStr.is_empty (PyStr.rstrip_with PyStr.isspace (PyStr.join sepr ts))
    then PyStr.rstrip_with PyStr.isspace t
    else t ++ sepr ++ PyStr.rstrip_with PyStr.isspace (PyStr.join sepr ts).
Proof.
  destruct ts as [|t2 ts]; [reflexivity|].
  rewrite join_cons by discriminate.
  rewrite rstrip_app, rstrip_sepr.
  destruct (PyStr.is_empty (PyStr.rstrip_with PyStr.isspace (PyStr.join sepr (t2 :: ts))));
    [reflexivity|].
  rewrite sepr_app_nonempty. reflexivity.
Qed.

Lemma rstrip_join_by (L : list string) :
  lines_ok L = true ->
  exists L', PyStr.rstrip_with PyStr.isspace (PyStr.join sepr L) = PyStr.join sepr L' /\
             same_parse L L' /\ lines_ok L' = true /\ ends_nonempty L' = true.
Proof.
  induction L as [|t ts IH]; intro Hok.
  - exists []. split; [reflexivity|]. split; [apply same_parse_refl|]. split; reflexivity.
  - simpl in Hok. apply andb_true_iff in Hok. destruct Hok as [Ht Hts].
    destruct (IH Hts) as (ts' & Hr & Hsame & Hok' & Hend).
    rewrite rstrip_join_step_by, Hr.
    destruct (PyStr.is_empty (PyStr.join sepr ts')) eqn:Hempty.
    + assert (Hnil : ts' = [])
        by (apply join_empty_by; [exact Hend | apply is_empty_true, Hempty]).
      subst ts'.
      destruct (PyStr.is_empty (PyStr.rstrip_with PyStr.isspace t)) eqn:Hblank.
      * exists []. rewrite (is_empty_true _ Hblank).
        split; [reflexivity|]. split; [|split; reflexivity].
        apply same_parse_skip; [|exact Hsame].
        apply parse_line_blank_r, is_empty_true, Hblank.
      * exists [PyStr.rstrip_with PyStr.isspace t]. split; [reflexivity|]. split; [|split].
        -- apply same_parse_cons; [|exact Hsame]. symmetry. apply parse_line_rstrip.
        -- simpl. rewrite (rstrip_keeps _ _ _ Ht). reflexivity.
        -- simpl. rewrite Hblank. reflexivity.
    + assert (Hne : ts' <> []) by (intros ->; discriminate).
      exists (t :: ts'). split; [|split; [|split]].
      * rewrite join_cons by exact Hne. reflexivity.
      * apply same_parse_cons; [reflexivity | exact Hsame].
      * simpl. rewrite Ht, Hok'. reflexivity.
      * destruct ts'; [congruence | exact Hend].
Qed.

Lemma splitlines_join_by (L : list string) :
  lines_ok L = true -> ends_nonempty L = true ->
  PyStr.splitlines (PyStr.join sepr L) = L.
Proof.
  induction L as [|l ls IH]; [reflexivity|].
  intros Hok Hend. simpl in Hok. apply andb_true_iff in Hok. destruct Hok as [Hl Hls].
  destruct ls as [|l2 ls].
  - simpl in *. apply splitlines_line; [exact Hl|].
    destruct l; [discriminate | discriminate].
  - rewrite join_cons by discriminate.
    rewrite (sepr_splits l _ Hl), (IH Hls Hend). reflexivity.
Qed.

Lemma parse_joined_by (texts : list string) :
  lines_ok texts = true ->
  _parse_nvidia_smi (PyStr.join sepr texts) = parse_loop texts [].
Proof.
  intro Hok. unfold _parse_nvidia_smi, PyStr.strip, PyStr.strip_with.
  destruct (lstrip_join_by texts Hok) as (L & -> & Hsame & HLok).
  destruct (rstrip_join_by L HLok) as (L' & -> & Hsame' & HLok' & Hend).
  rewrite (splitlines_join_by L' HLok' Hend).
  symmetry. apply (same_parse_trans _ _ _ Hsame Hsame').
Qed.
End JoinedBy.

Lemma splitlines_app_crlf (l rest : string) :
  PyStr.all_chars not_linebreak l = true ->
  PyStr.splitlines (l ++ crlf ++ rest) = l :: PyStr.splitlines rest.
Proof.
  induction l as [|c l IH].
  - intros _. reflexivity.
  - simpl. unfold not_linebreak at 1. rewrite andb_true_iff, negb_true_iff.
    intros [-> Hl]. simpl in IH. rewrite (IH Hl). reflexivity.
Qed.

(** X16: the parser reads telemetry with Windows line endings as it reads the
    same lines with line feeds: for lines without line boundaries, joining
    them by a carriage return and a line feed, or by a line feed, gives the
    same result, readings or exception. *)
Theorem parser_accepts_crlf :
  forall (texts : list string),
    lines_ok texts = true ->
    _parse_nvidia_smi (PyStr.join crlf texts) = _parse_nvidia_smi (PyStr.join nl texts) /\
    _parse_nvidia_smi (PyStr.join nl texts) = parse_loop texts [].
Proof.
  intros texts Hok.
  rewrite (parse_joined texts Hok). split; [|reflexivity].
  apply (parse_joined_by crlf); [reflexivity | discriminate | | exact Hok].
  intros l rest Hl. apply splitlines_app_crlf, Hl.
Qed.

(** ** Whole runs *)

Lemma main_loop_prefix (a : args) (env : environ) (W : nat -> cycle_world) :
  forall (k m n : nat),
    (forall j, (j < k)%nat -> snd (check_cycle a env (W (n + j)%nat)) = Next tt) ->
    main_loop (k + m) a env W n
    = ((map (fun j => fst (check_cycle a env (W (n + j)%nat))) (seq 0 k)
          ++ fst (main_loop m a env W (n + k)%nat))%list,
       snd (main_loop m a env W (n + k)%nat)).
Proof.
  induction k as [|k IH]; intros m n H.
  - simpl. rewrite Nat.add_0_r. destruct (main_loop m a env W n). reflexivity.
  - cbn [Nat.add main_loop].
    pose proof (H 0%nat ltac:(lia)) as H0. rewrite Nat.add_0_r in H0.
    destruct (check_cycle a env (W n)) as [t r] eqn:Hc. simpl in H0. subst r.
    rewrite IH.
    + replace (S n + k)%nat with (n + S k)%nat by lia.
      cbn [seq map]. rewrite Nat.add_0_r, Hc. simpl. f_equal. f_equal. f_equal.
      rewrite <- seq_shift, map_map.
      apply map_ext. intro j. do 3 f_equal. lia.
    + intros j Hj. replace (S n + j)%nat with (n + S j)%nat by lia. apply H. lia.
Qed.

(** X17: the [except] clause around the call of [nvidia-smi] does not cover
    the parser: in a cycle whose telemetry makes the parser raise, the
    exception leaves [main].  The run ends there, after the poll of that
    cycle and without any output, sleep or later poll, whatever the mode. *)
Theorem parse_error_ends_the_run :
  forall (a : args) (env : environ) (W : nat -> cycle_world) (k fuel : nat)
         (out : string) (e : exn),
    (forall j, (j < k)%nat -> snd (check_cycle a env (W j)) = Next tt) ->
    nvidia_smi (W k) = inl out ->
    _parse_nvidia_smi out = Raised e ->
    main a env W (k + S fuel)
    = ((map (fun j => fst (check_cycle a env (W j))) (seq 0 k) ++ [[RunNvidiaSmi]])%list,
       Crashed e).
Proof.
  intros a env W k fuel out e Hbefore Hsmi Hparse. unfold main.
  rewrite (main_loop_prefix a env W k (S fuel) 0) by exact Hbefore.
  cbn [Nat.add main_loop].
  rewrite (check_cycle_parse_error a env (W k) out e Hsmi Hparse). reflexivity.
Qed.


(** X18: [main] returns only 0, 1 or 2.  It returns 2 in the cycle in which
    invoking the telemetry source raised; it returns 0 or 1 only under
    [--once], from the first cycle: 0 after an alert for a non-empty idle
    list, 1 after parsed telemetry with no idle device and no alert. *)
Theorem main_returns_0_1_or_2 :
  forall (a : args) (env : environ) (W : nat -> cycle_world) (fuel : nat) (code : Z),
    snd (main a env W fuel) = Exited code ->
    exists k,
      List.length (fst (main a env W fuel)) = S k /\
      ((code = 2 /\ exists text, nvidia_smi (W k) = inr text) \/
       (code = 0 /\ once a = true /\ k = 0%nat /\
        classify a (cycle_devices (W 0%nat)) <> [] /\
        filter is_alert (fst (check_cycle a env (W 0%nat)))
        = [Print (alert_line (classify a (cycle_devices (W 0%nat))))]) \/
       (code = 1 /\ once a = true /\ k = 0%nat /\
        classify a (cycle_devices (W 0%nat)) = [] /\
        filter is_alert (fst (check_cycle a env (W 0%nat))) = [] /\
        exists out gpus, nvidia_smi (W 0%nat) = inl out /\ _parse_nvidia_smi out = Ok gpus)).
Proof.
  intros a env W fuel code Hexit. unfold main in *.
  destruct (main_loop_exit a env W fuel 0 code Hexit) as (k & Hlen & Hret).
  simpl in Hret. exists k. split; [exact Hlen|].
  destruct (cycle_returns a env (W k) code Hret)
    as [(-> & text & Hsmi) | (Ho & Hcode & out & gpus & Hsmi & Hparse)].
  - left. eauto.
  - right.
    assert (Hk : k = 0%nat).
    { destruct k as [|k]; [reflexivity|]. exfalso.
      assert (Hnth : exists t, nth_error (fst (main_loop fuel a env W 0)) 0 = Some t).
      { destruct (fst (main_loop fuel a env W 0)) as [|t ts]; [discriminate|].
        exists t. reflexivity. }
      destruct Hnth as (t & Hnth).
      pose proof (main_loop_flow a env W fuel 0 0 t Hnth) as Hflow.
      simpl in Hflow.
      assert (Hnext : snd (check_cycle a env (W 0%nat)) = Next tt)
        by (apply Hflow; left; lia).
      apply cycle_falls_through in Hnext. destruct Hnext as [Hf _]. congruence. }
    subst k.
    pose proof (cycle_alert_lines a env (W 0%nat)) as Halert.
    destruct (classify a (cycle_devices (W 0%nat))) as [|g idle] eqn:Hcl; simpl in Hcode.
    + right. repeat split; auto. eauto.
    + left. repeat split; auto. discriminate.
Qed.



Lemma cycle_case_poll (a : args) (env : environ) (w : cycle_world) t r :
  cycle_case a env w t r ->
  exists rest, t = RunNvidiaSmi :: rest /\ filter is_poll rest = [].
Proof.
  assert (Hq : forall l, forallb quiet l = true -> filter is_poll l = []).
  { induction l as [|e l IH]; simpl; [reflexivity|].
    rewrite andb_true_iff. intros [He Hl].
    destruct e; simpl in *; try discriminate; auto. }
  intros [text Hsmi | out e Hsmi Hparse | out gpus e Hsmi Hparse Hm
         | out gpus mail Hsmi Hparse Hm Ho | out gpus mail Hsmi Hparse Hm Ho];
    eexists; (split; [reflexivity|]); try reflexivity.
  - apply Hq. rewrite forallb_app, report_quiet, alert_events_quiet. reflexivity.
  - apply Hq. rewrite !forallb_app, report_quiet, alert_events_quiet,
      (mail_case_quiet _ _ _ _ _ _ _ Hm). reflexivity.
  - rewrite !app_assoc, filter_app. simpl. rewrite app_nil_r, <- app_assoc.
    apply Hq. rewrite !forallb_app, report_quiet, alert_events_quiet,
      (mail_case_quiet _ _ _ _ _ _ _ Hm). reflexivity.
Qed.

(** X20: every check cycle invokes the telemetry source exactly once, before
    anything else it does; a run of [n] cycles has made [n] polls. *)
Theorem one_poll_per_cycle :
  forall (a : args) (env : environ) (W : nat -> cycle_world) (fuel : nat),
    (forall k t, nth_error (fst (main a env W fuel)) k = Some t ->
       exists rest, t = RunNvidiaSmi :: rest /\ filter is_poll rest = []) /\
    List.length (filter is_poll (List.concat (fst (main a env W fuel))))
    = List.length (fst (main a env W fuel)).
Proof.
  intros a env W fuel.
  assert (Hcycle : forall k t, nth_error (fst (main a env W fuel)) k = Some t ->
            exists rest, t = RunNvidiaSmi :: rest /\ filter is_poll rest = []).
  { intros k t Hnth. unfold main in Hnth.
    pose proof (main_loop_nth a env W fuel 0 k t Hnth) as Ht. simpl in Ht. subst t.
    apply (cycle_case_poll a env (W k) _ _ (check_cycle_case a env (W k))). }
  split; [exact Hcycle|].
  revert Hcycle. generalize (fst (main a env W fuel)). intros ts.
  induction ts as [|t ts IH]; intro H; [reflexivity|].
  destruct (H 0%nat t eq_refl) as (rest & -> & Hrest).
  simpl. rewrite filter_app, Hrest. simpl. f_equal.
  apply IH. intros k t' Hk. apply (H (S k) t'). exact Hk.
Qed.

(** ** The environment *)

Lemma getenv_agree (env env' : environ) (name default : string) :
  env name = env' name -> getenv env name default = getenv env' name default.
Proof. intro H. unfold getenv. rewrite H. reflexivity. Qed.

Lemma resolve_smtp_agree (a : args) (env env' : environ) :
  (forall name, In name smtp_variables -> env name = env' name) ->
  resolve_smtp a env = resolve_smtp a env'.
Proof.
  intro H. unfold resolve_smtp, resolve_port, resolve_recipients.
  rewrite (getenv_agree env env' "SMTP_HOST"), (getenv_agree env env' "SMTP_PORT"),
    (getenv_agree env env' "SMTP_USER"), (getenv_agree env env' "SMTP_PASS"),
    (getenv_agree env env' "SMTP_TO")
    by (apply H; simpl; tauto).
  assert (Hs : forall d, getenv env "SMTP_SENDER" d = getenv env' "SMTP_SENDER" d)
    by (intro d; apply getenv_agree, H; simpl; tauto).
  destruct (if negb (smtp_port a =? 0) then Ok (smtp_port a)
            else if truthy (getenv env' "SMTP_PORT" "0")
                 then py_int (getenv env' "SMTP_PORT" "0") else Ok 0); simpl;
    [rewrite Hs|]; reflexivity.
Qed.

Lemma check_cycle_agree (a : args) (env env' : environ) (w : cycle_world) :
  email a = false \/ resolve_smtp a env = resolve_smtp a env' ->
  check_cycle a env w = check_cycle a env' w.
Proof.
  intro H. unfold check_cycle, alert_block, email_block.
  destruct H as [H | H]; [rewrite H | rewrite H]; reflexivity.
Qed.

(** X21: the environment reaches the program only through the six [SMTP_]
    variables, and only under [--email]: two runs with the same arguments and
    the same answers from the outside are the same run when [--email] is off,
    or when the two environments agree on those six variables. *)
Theorem only_the_smtp_variables_matter :
  forall (a : args) (env env' : environ) (W : nat -> cycle_world) (fuel : nat),
    email a = false \/ (forall name, In name smtp_variables -> env name = env' name) ->
    main a env W fuel = main a env' W fuel.
Proof.
  intros a env env' W fuel H. unfold main.
  assert (Hcycle : forall w, check_cycle a env w = check_cycle a env' w).
  { intro w. apply check_cycle_agree.
    destruct H as [H | H]; [left; exact H | right; apply resolve_smtp_agree, H]. }
  generalize 0%nat. induction fuel as [|fuel IH]; intro n; [reflexivity|].
  simpl. rewrite Hcycle, IH. reflexivity.
Qed.

(** A cycle that gets to the end of the loop body without [--once] calls
    [time.sleep], and ends as the sleep ends. *)
Lemma cycle_reaches_sleep (a : args) (env : environ) (w : cycle_world) out gpus :
  once a = false ->
  nvidia_smi w = inl out -> _parse_nvidia_smi out = Ok gpus ->
  classify a gpus = [] \/ email a = false \/ (exists c, resolve_smtp a env = Ok c) ->
  exists body,
    check_cycle a env w
    = ((body ++ [Sleep (interval a)])%list,
       match sleep w with None => Next tt | Some text => Raise (Error text) end) /\
    filter is_sleep body = [].
Proof.
  intros Ho Hsmi Hparse Hmail.
  pose proof (check_cycle_case a env w) as Hcase.
  destruct (check_cycle a env w) as [t r]. simpl in Hcase.
  inversion Hcase as [text Hsmi' | out' e Hsmi' Hparse' | out' gpus' e Hsmi' Hparse' Hm
                     | out' gpus' mail Hsmi' Hparse' Hm Ho'
                     | out' gpus' mail Hsmi' Hparse' Hm Ho']; subst.
  - congruence.
  - rewrite Hsmi in Hsmi'. injection Hsmi' as <-. congruence.
  - rewrite Hsmi in Hsmi'. injection Hsmi' as <-.
    rewrite Hparse in Hparse'. injection Hparse' as <-.
    inversion Hm as [ | e' Hidle He Hr | | | ]; subst.
    destruct Hmail as [H | [H | (c & H)]]; congruence.
  - congruence.
  - rewrite Hsmi in Hsmi'. injection Hsmi' as <-.
    rewrite Hparse in Hparse'. injection Hparse' as <-.
    exists (RunNvidiaSmi :: report a gpus (classify a gpus)
              ++ alert_events (classify a gpus) ++ mail)%list.
    split; [simpl; rewrite <- !app_assoc; reflexivity|].
    cbn [filter is_sleep]. apply quiet_filter_sleep.
    rewrite !forallb_app, report_quiet, alert_events_quiet,
      (mail_case_quiet _ _ _ _ _ _ _ Hm). reflexivity.
Qed.

(** X22: an exception raised by [time.sleep] (an interrupt, a negative or
    not a finite interval) is not caught: it leaves [main] at the end of the
    cycle, after the output of that cycle, and no later poll happens. *)
Theorem sleep_error_ends_the_run :
  forall (a : args) (env : environ) (W : nat -> cycle_world) (k fuel : nat)
         (out text : string) (gpus : list gpu),
    (forall j, (j < k)%nat -> snd (check_cycle a env (W j)) = Next tt) ->
    once a = false ->
    nvidia_smi (W k) = inl out -> _parse_nvidia_smi out = Ok gpus ->
    classify a gpus = [] \/ email a = false \/ (exists c, resolve_smtp a env = Ok c) ->
    sleep (W k) = Some text ->
    snd (main a env W (k + S fuel)) = Crashed (Error text) /\
    List.length (fst (main a env W (k + S fuel))) = S k /\
    exists body,
      nth_error (fst (main a env W (k + S fuel))) k = Some (body ++ [Sleep (interval a)])%list /\
      filter is_sleep body = [].
Proof.
  intros a env W k fuel out text gpus Hbefore Ho Hsmi Hparse Hmail Hsleep. unfold main.
  rewrite (main_loop_prefix a env W k (S fuel) 0) by exact Hbefore.
  cbn [Nat.add main_loop fst snd].
  destruct (cycle_reaches_sleep a env (W k) out gpus Ho Hsmi Hparse Hmail)
    as (body & Hcycle & Hbody).
  rewrite Hcycle, Hsleep. cbn [fst snd].
  split; [reflexivity|]. split.
  - rewrite length_app, length_map, length_seq. simpl. lia.
  - exists body. split; [|exact Hbody].
    rewrite nth_error_app2 by (rewrite length_map, length_seq; lia).
    rewrite length_map, length_seq, Nat.sub_diag. reflexivity.
Qed.

(** ** The further properties at sample inputs *)

Ltac in_list := simpl; repeat first [left; reflexivity | right].




(** The login of the sample cycle uses the resolved user and password. *)
Lemma X4_witness :
  exists c, resolve_smtp login_args no_env = Ok c /\
            "u" = cfg_user c /\ "p" = cfg_pass c /\ "u" <> "" /\ "p" <> "".
Proof.
  apply (login_only_with_user_and_password login_args no_env idle_answer "u" "p").
  in_list.
Defined.


(** The connection attempt comes after the alert line and the bell. *)
Lemma X6_witness :
  exists before after,
    fst (check_cycle mail_args no_env refusing_answer)
    = (before ++ Smtp (SMTP "mail.example.org" 25) :: after)%list /\
    In (Print (alert_line (classify mail_args (cycle_devices refusing_answer)))) before /\
    In Bell before.
Proof.
  apply (alert_precedes_mail mail_args no_env refusing_answer
           (Smtp (SMTP "mail.example.org" 25))).
  - reflexivity.
  - in_list.
Defined.

(** Commas and blanks resolve to no recipient. *)
Lemma X7_witness : resolve_recipients default_args blank_to_env = [].
Proof.
  apply (proj2 (recipients_are_clean default_args blank_to_env)). reflexivity.
Defined.

(** The alert line of the sample readings, taken as both idle. *)
Lemma X9_witness :
  map PyStr.int (PyStr.split "," (idle_ids idle_readings)) = [Some 0; Some 1].
Proof.
  apply (alert_indices_round_trip idle_readings). discriminate.
Defined.

(** Equal status lines, equal readings. *)
Lemma X10_witness : mk_gpu 0 3 120 8000 = mk_gpu 0 (1 + 2) 120 8000.
Proof.
  apply (status_line_determines_reading (mk_gpu 0 3 120 8000) (mk_gpu 0 (1 + 2) 120 8000)).
  reflexivity.
Defined.

(** The device that is idle under the defaults stays idle under looser
    thresholds. *)
Lemma X11_witness : In (mk_gpu 0 3 120 8000) (classify loose_args idle_readings).
Proof.
  apply (proj1 (idle_list_grows_with_thresholds default_args loose_args idle_readings
                  ltac:(simpl; lia) ltac:(simpl; lia))).
  in_list.
Defined.

(** A blank line before and a blank after the telemetry. *)
Lemma X12_witness :
  _parse_nvidia_smi (nl ++ "0, 3, 120, 8000" ++ " ") = _parse_nvidia_smi "0, 3, 120, 8000".
Proof.
  apply (parser_ignores_surrounding_space nl "0, 3, 120, 8000" " "); reflexivity.
Defined.

(** Blank telemetry in the default mode: a poll and a sleep. *)
Lemma X13_witness :
  cycle_devices blank_answer = [] /\
  check_cycle default_args no_env blank_answer
  = ([RunNvidiaSmi; Sleep (Finite 5)], Next tt).
Proof.
  apply (blank_telemetry_means_no_device default_args no_env blank_answer (nl ++ " "));
    reflexivity.
Defined.

(** An unreported utilization makes the parser raise. *)
Lemma X14_witness : exists e, _parse_nvidia_smi "0, [N/A], 120, 8000" = Raised e.
Proof.
  apply (proj2 (proj1 (proj2 (parser_fails_exactly_on_a_bad_field "0, [N/A], 120, 8000")))).
  exists "0, [N/A], 120, 8000". split; [in_list|]. split; [reflexivity|].
  exists "[N/A]". split; [in_list | reflexivity].
Defined.

(** One reading, then a line of one field and another reading. *)
Lemma X15_witness :
  _parse_nvidia_smi (PyStr.join nl (["0, 3, 120, 8000"] ++ ["x"; "1, 97, 7000, 8000"]))
  = Ok [mk_gpu 0 3 120 8000; mk_gpu 1 97 7000 8000].
Proof.
  apply (parser_composes ["0, 3, 120, 8000"] ["x"; "1, 97, 7000, 8000"]); reflexivity.
Defined.

(** Two readings with either line ending. *)
Lemma X16_witness :
  _parse_nvidia_smi (PyStr.join crlf ["0, 3, 120, 8000"; "1, 97, 7000, 8000"; ""])
  = _parse_nvidia_smi (PyStr.join nl ["0, 3, 120, 8000"; "1, 97, 7000, 8000"; ""]).
Proof.
  apply (proj1 (parser_accepts_crlf ["0, 3, 120, 8000"; "1, 97, 7000, 8000"; ""] eq_refl)).
Defined.

(** A busy cycle, then the unreported utilization: the run ends in the second
    cycle. *)
Lemma X17_witness :
  main default_args no_env late_na_world 3
  = ([[RunNvidiaSmi; Print "GPU 0: util=50% mem=1000/8000 MB"; Sleep (Finite 5)];
      [RunNvidiaSmi]],
     Crashed (InvalidLiteral "[N/A]")).
Proof.
  apply (parse_error_ends_the_run default_args no_env late_na_world 1 1
           ("0, [N/A], 120, 8000" ++ nl) (InvalidLiteral "[N/A]")).
  - intros j Hj. assert (Hz : j = 0%nat) by lia. rewrite Hz. reflexivity.
  - reflexivity.
  - reflexivity.
Defined.

(** [--once] on an idle device: one cycle, and a code. *)
Lemma X18_witness :
  exists k, List.length (fst (main once_email_args no_env (fun _ => idle_answer) 1)) = S k.
Proof.
  destruct (main_returns_0_1_or_2 once_email_args no_env (fun _ => idle_answer) 1 0 eq_refl)
    as (k & Hlen & _).
  exists k. exact Hlen.
Defined.


(** Three cycles, three polls. *)
Lemma X20_witness :
  List.length (filter is_poll (List.concat (fst (main default_args no_env steady_world 3))))
  = 3%nat.
Proof.
  apply (proj2 (one_poll_per_cycle default_args no_env steady_world 3)).
Defined.

(** Without [--email], a malformed [SMTP_PORT] changes nothing. *)
Lemma X21_witness :
  main default_args no_env steady_world 2 = main default_args malformed_port_env steady_world 2.
Proof.
  apply (only_the_smtp_variables_matter default_args no_env malformed_port_env steady_world 2).
  left. reflexivity.
Defined.

(** A sleep that is interrupted ends the run after one cycle. *)
Lemma X22_witness :
  snd (main default_args no_env (fun _ => interrupted_answer) 2) = Crashed (Error "interrupted").
Proof.
  apply (sleep_error_ends_the_run default_args no_env (fun _ => interrupted_answer) 0 1
           ("0, 50, 1000, 8000" ++ nl) "interrupted" [mk_gpu 0 50 1000 8000]).
  - intros j Hj. lia.
  - reflexivity.
  - reflexivity.
  - reflexivity.
  - left. reflexivity.
  - reflexivity.
Defined.
